(** * Kilominx geometry: a shallow embedding of the geometry generators

    The repository holds two geometry modules with the same exported names:

    - the full model ([Module Full]): [normalizeVector], [scaleVector],
      [addVectors], [crossProduct], [generateDodecahedronVertices],
      [generateMajorFaces], [generatePentagonVertices],
      [generateKilominxFaces], [calculateNeighbors],
      [createKilominxGeometry], [getSolvedStateColors], [validateGeometry];
    - the simple model ([Module Simple], src/lib/kilominx/geometry.ts):
      [createKilominxGeometry], [getSolvedStateColors], [getDefaultColors],
      [validateGeometry].

    A JavaScript [number] is an IEEE 754 binary64 value.  The code is
    embedded once, over an interface [Arith] of the arithmetic it uses and an
    interface [Trig] for [Math.cos] and [Math.sin] (which ECMAScript leaves to
    the host).  Two instances are given: [IEEE], the kernel's binary64
    floats, which is what the program runs on, and [Exact], the real numbers,
    which is what the geometry means when nothing is rounded.  Whatever holds
    for every instance holds for the program on every host.

    Loop counters, array lengths, ids and ring numbers are small
    non-negative integers and are kept as [nat].  Diagnostic output
    ([console.log], [console.error]) is not modelled: no function's result
    depends on it.

    Beside the geometry the file embeds the face overlay
    ([Module Overlay], lib/kilominx/face-overlay:
    [createSubdividedFaceTexture], the [draw...] functions and
    [updateFaceColor]), with the 2D context of a canvas as the sequence of
    calls the code has issued on it, and the event handling of the renderer
    component ([Module Renderer]: [handleMouseDown], [handleMouseMove],
    [handleMouseUp], and of [handleClick] and the mount effect the pointer
    coordinates, the face index, the colour assignment and the face groups).
    Three.js itself (scene, camera, ray casting, rendering) is not modelled.

    The file has five parts: the embedding, the vocabulary of the
    properties, the lemmas, the claims, and further properties of the
    code. *)

From Stdlib Require Import String.
From Stdlib Require Import ZArith QArith Qreals List Bool Arith Lia Sorted.
From Stdlib Require Import Floats Reals Lra Psatz.
Import ListNotations.

Close Scope R_scope.
Close Scope Q_scope.
Close Scope Z_scope.
Open Scope nat_scope.

(** ** Numbers *)

(** The arithmetic of a JavaScript [number] that the geometry code uses. *)
Class Arith (num : Type) : Type := {
  fromZ : Z -> num;              (* an integer literal, or a loop counter *)
  fromQ : Q -> num;              (* a decimal literal such as 0.9 *)
  nadd : num -> num -> num;
  nsub : num -> num -> num;
  nmul : num -> num -> num;
  ndiv : num -> num -> num;
  nneg : num -> num;             (* unary minus *)
  Math_sqrt : num -> num;
  Math_abs : num -> num;
  Math_PI : num;
  nlt : num -> num -> bool;      (* a < b *)
  neq : num -> num -> bool       (* a === b *)
}.

(** [Math.cos] and [Math.sin]. *)
Class Trig (num : Type) : Type := {
  Math_cos : num -> num;
  Math_sin : num -> num
}.

Declare Scope num_scope.
Delimit Scope num_scope with num.
Infix "+" := nadd : num_scope.
Infix "-" := nsub : num_scope.
Infix "*" := nmul : num_scope.
Infix "/" := ndiv : num_scope.
Notation "- a" := (nneg a) : num_scope.
Notation "a <? b" := (nlt a b) : num_scope.
Notation "a >? b" := (nlt b a) : num_scope.
Notation "a === b" := (neq a b) (at level 70, no associativity) : num_scope.

(** *** IEEE 754 binary64 *)

(** An integer as a double (exact below 2^53, which covers every integer
    the code writes). *)
Definition float_of_Z (n : Z) : float :=
  match n with
  | Z0 => PrimFloat.zero
  | Zpos _ => PrimFloat.of_uint63 (Uint63.of_Z n)
  | Zneg p => PrimFloat.opp (PrimFloat.of_uint63 (Uint63.of_Z (Zpos p)))
  end.

(** A decimal literal as a double: the quotient of two exactly representable
    integers, rounded once, is the double nearest to the literal. *)
Definition float_of_Q (q : Q) : float :=
  PrimFloat.div (float_of_Z (Qnum q)) (float_of_Z (Zpos (Qden q))).

(** [Math.PI]: the double nearest to pi. *)
Definition float_PI : float := 0x1.921fb54442d18p+1%float.

Definition IEEE : Arith float := {|
  fromZ := float_of_Z;
  fromQ := float_of_Q;
  nadd := PrimFloat.add;
  nsub := PrimFloat.sub;
  nmul := PrimFloat.mul;
  ndiv := PrimFloat.div;
  nneg := PrimFloat.opp;
  Math_sqrt := PrimFloat.sqrt;
  Math_abs := PrimFloat.abs;
  Math_PI := float_PI;
  nlt := PrimFloat.ltb;
  neq := PrimFloat.eqb
|}.

(** A host for [Math.cos] and [Math.sin], tabulated at the five angles
    [(i * 2 * Math.PI) / 5] the generators use, with the values a typical
    libm returns there.  ECMAScript fixes [Math.cos(0) = 1] and
    [Math.sin(0) = 0]; outside the table the sample answers as at 0.  It
    serves only to run the generators on a concrete host: every theorem
    about the full model is stated for all hosts. *)
Definition sample_table : list (float * (float * float)) :=
  [ (0x0p+0,                 (0x1p+0,                   0x0p+0));
    (0x1.41b2f769cf0ep+0,    (0x1.3c6ef372fe95p-2,      0x1.e6f0e134454ffp-1));
    (0x1.41b2f769cf0ep+1,    (-0x1.9e3779b97f4a7p-1,    0x1.2cf2304755a5fp-1));
    (0x1.e28c731eb695p+1,    (-0x1.9e3779b97f4a9p-1,    -0x1.2cf2304755a5dp-1));
    (0x1.41b2f769cf0ep+2,    (0x1.3c6ef372fe94cp-2,     -0x1.e6f0e134455p-1)) ]%float.

Fixpoint sample_lookup (tab : list (float * (float * float))) (a : float)
  : float * float :=
  match tab with
  | [] => (PrimFloat.one, PrimFloat.zero)
  | (k, v) :: rest => if PrimFloat.eqb a k then v else sample_lookup rest a
  end.

Definition sampleHost : Trig float := {|
  Math_cos := fun a => fst (sample_lookup sample_table a);
  Math_sin := fun a => snd (sample_lookup sample_table a)
|}.

(** *** Exact real arithmetic *)

Definition R_ltb (a b : R) : bool := if Rlt_dec a b then true else false.
Definition R_eqb (a b : R) : bool := if Req_dec_T a b then true else false.

Definition Exact : Arith R := {|
  fromZ := IZR;
  fromQ := Q2R;
  nadd := Rplus;
  nsub := Rminus;
  nmul := Rmult;
  ndiv := Rdiv;
  nneg := Ropp;
  Math_sqrt := R_sqrt.sqrt;
  Math_abs := Rabs;
  Math_PI := PI;
  nlt := R_ltb;
  neq := R_eqb
|}.


(** ** Data model (types/kilominx) *)

(** [enum FaceColor]: twelve members, each a hex string. *)
Inductive FaceColor : Set :=
  | WHITE | YELLOW | DARK_BLUE | LIGHT_BLUE | RED | PINK
  | ORANGE | LIGHT_GREEN | DARK_GREEN | PURPLE | GREY | DARK_BROWN.

(** The runtime value of an enum member. *)
Definition FaceColor_value (c : FaceColor) : string :=
  match c with
  | WHITE => "#FFFFFF"
  | YELLOW => "#FFFF00"
  | DARK_BLUE => "#0000FF"
  | LIGHT_BLUE => "#87CEEB"
  | RED => "#FF0000"
  | PINK => "#FFC0CB"
  | ORANGE => "#FFA500"
  | LIGHT_GREEN => "#90EE90"
  | DARK_GREEN => "#006400"
  | PURPLE => "#800080"
  | GREY => "#808080"
  | DARK_BROWN => "#8B4513"
  end%string.

Record Vector3 (num : Type) : Type := mkVector3 {
  x : num;
  y : num;
  z : num
}.
Arguments mkVector3 {num} _ _ _.
Arguments x {num} _.
Arguments y {num} _.
Arguments z {num} _.

Record Face (num : Type) : Type := mkFace {
  id : nat;
  color : FaceColor;
  center : Vector3 num;
  normal : Vector3 num;
  vertices : list (Vector3 num);
  neighbors : list nat;
  majorFace : nat;
  ring : nat;
  ringPosition : nat
}.
Arguments mkFace {num} _ _ _ _ _ _ _ _ _.
Arguments id {num} _.
Arguments color {num} _.
Arguments center {num} _.
Arguments normal {num} _.
Arguments vertices {num} _.
Arguments neighbors {num} _.
Arguments majorFace {num} _.
Arguments ring {num} _.
Arguments ringPosition {num} _.

Record KilominxGeometry (num : Type) : Type := mkGeometry {
  faces : list (Face num);
  radius : num;
  scale : num
}.
Arguments mkGeometry {num} _ _ _.
Arguments faces {num} _.
Arguments radius {num} _.
Arguments scale {num} _.

(** ** Arrays and loops *)

(** [arr.push(a)]. *)
Definition push {A : Type} (arr : list A) (a : A) : list A := arr ++ [a].

(** [arr.forEach((a, index) => ...)], the callback threading a state;
    [k] is the index of the first element of [arr]. *)
Fixpoint forEach_from {A S : Type} (k : nat) (arr : list A)
    (body : S -> A -> nat -> S) (s : S) : S :=
  match arr with
  | [] => s
  | a :: rest => forEach_from (Datatypes.S k) rest body (body s a k)
  end.

Definition forEach {A S : Type} (arr : list A) (body : S -> A -> nat -> S)
    (s : S) : S :=
  forEach_from 0 arr body s.

(** [for (let i = 0; i < n; i++) ...], the body threading a state. *)
Definition for_range {S : Type} (n : nat) (body : S -> nat -> S) (s : S) : S :=
  fold_left body (seq 0 n) s.

(** [arr[i] = a] for an index inside the array (the only use made of it). *)
Fixpoint set_nth {A : Type} (i : nat) (a : A) (arr : list A) : list A :=
  match arr, i with
  | [], _ => []
  | _ :: rest, O => a :: rest
  | b :: rest, Datatypes.S j => b :: set_nth j a rest
  end.

(** ** The full model *)

Module Full.

Section Code.
Context {num : Type} {A : Arith num} {T : Trig num}.
Local Open Scope num_scope.

(** *** Mathematical constants *)

Definition PHI : num := (fromZ 1 + Math_sqrt (fromZ 5)) / fromZ 2.
Definition PHI_INV : num := fromZ 1 / PHI.
Definition SCALE : num := fromZ 2.

(** *** Utility functions *)

Definition createVector3 (x y z : num) : Vector3 num := mkVector3 x y z.

Definition normalizeVector (v : Vector3 num) : Vector3 num :=
  let length := Math_sqrt (x v * x v + y v * y v + z v * z v) in
  if length === fromZ 0 then mkVector3 (fromZ 0) (fromZ 0) (fromZ 0)
  else mkVector3 (x v / length) (y v / length) (z v / length).

Definition scaleVector (v : Vector3 num) (scale : num) : Vector3 num :=
  mkVector3 (x v * scale) (y v * scale) (z v * scale).

Definition addVectors (a b : Vector3 num) : Vector3 num :=
  mkVector3 (x a + x b) (y a + y b) (z a + z b).

Definition crossProduct (a b : Vector3 num) : Vector3 num :=
  mkVector3 (y a * z b - z a * y b)
            (z a * x b - x a * z b)
            (x a * y b - y a * x b).

(** *** Dodecahedron base geometry *)

Definition cubeVertices : list (num * num * num) :=
  [ (fromZ 1, fromZ 1, fromZ 1);       (fromZ 1, fromZ 1, fromZ (-1));
    (fromZ 1, fromZ (-1), fromZ 1);    (fromZ 1, fromZ (-1), fromZ (-1));
    (fromZ (-1), fromZ 1, fromZ 1);    (fromZ (-1), fromZ 1, fromZ (-1));
    (fromZ (-1), fromZ (-1), fromZ 1); (fromZ (-1), fromZ (-1), fromZ (-1)) ].

Definition axisVertices : list (num * num * num) :=
  [ (fromZ 0, PHI, PHI_INV);   (fromZ 0, PHI, - PHI_INV);
    (fromZ 0, - PHI, PHI_INV); (fromZ 0, - PHI, - PHI_INV);
    (PHI_INV, fromZ 0, PHI);   (PHI_INV, fromZ 0, - PHI);
    (- PHI_INV, fromZ 0, PHI); (- PHI_INV, fromZ 0, - PHI);
    (PHI, PHI_INV, fromZ 0);   (PHI, - PHI_INV, fromZ 0);
    (- PHI, PHI_INV, fromZ 0); (- PHI, - PHI_INV, fromZ 0) ].

Definition pushScaled (vertices : list (Vector3 num)) (v : num * num * num)
    (_ : nat) : list (Vector3 num) :=
  let '(x, y, z) := v in
  push vertices (createVector3 (x * SCALE) (y * SCALE) (z * SCALE)).

(** Pushes the 8 cube vertices, then the 12 axis vertices, and returns
    [vertices.slice(0, 12)]. *)
Definition generateDodecahedronVertices : list (Vector3 num) :=
  let vertices := [] in
  let vertices := forEach cubeVertices pushScaled vertices in
  let vertices := forEach axisVertices pushScaled vertices in
  firstn 12 vertices.

(** The element type of [generateMajorFaces]: [{ center, normal }]. *)
Record MajorFace : Type := mkMajorFace {
  mcenter : Vector3 num;
  mnormal : Vector3 num
}.

Definition generateMajorFaces : list MajorFace :=
  let vertices := generateDodecahedronVertices in
  map (fun center => mkMajorFace center (normalizeVector center)) vertices.

(** *** Pentagon generation *)

(** [(i * 2 * Math.PI) / 5]. *)
Definition ringAngle (i : nat) : num :=
  (fromZ (Z.of_nat i) * fromZ 2 * Math_PI) / fromZ 5.

Definition generatePentagonVertices (center normal : Vector3 num)
    (radius : num) : list (Vector3 num) :=
  let vertices := [] in
  let up := createVector3 (fromZ 0) (fromZ 1) (fromZ 0) in
  let up := if Math_abs (y normal) >? fromQ 0.9
            then createVector3 (fromZ 1) (fromZ 0) (fromZ 0)
            else up in
  let right := normalizeVector (crossProduct up normal) in
  let forward := normalizeVector (crossProduct normal right) in
  for_range 5 (fun vertices i =>
    let angle := ringAngle i in
    let x := Math_cos angle * radius in
    let y := Math_sin angle * radius in
    let vertex := addVectors center
                    (addVectors (scaleVector right x) (scaleVector forward y)) in
    push vertices vertex) vertices.

(** *** Kilominx face generation *)

(** One cell of an inner ([ring = 1]) or outer ([ring = 2]) ring: the body of
    the two [for] loops of [generateKilominxFaces], which differ in the
    offset magnitude, the pentagon radius and the ring number. *)
Definition pushRingFace (majorFace : MajorFace) (majorIndex : nat)
    (offsetScale pentagonRadius : num) (ring : nat)
    (faces : list (Face num)) (i : nat) : list (Face num) :=
  let angle := ringAngle i in
  let offset := scaleVector
                  (mkVector3 (Math_cos angle) (Math_sin angle) (fromZ 0))
                  offsetScale in
  let faceCenter := addVectors (mcenter majorFace) offset in
  let ringFace := {|
    id := length faces;
    color := WHITE;
    center := faceCenter;
    normal := mnormal majorFace;
    vertices := generatePentagonVertices faceCenter (mnormal majorFace)
                  pentagonRadius;
    neighbors := [];
    majorFace := majorIndex;
    ring := ring;
    ringPosition := i
  |} in
  push faces ringFace.

(** The callback of [majorFaces.forEach] in [generateKilominxFaces]. *)
Definition pushMajorFace (faces : list (Face num)) (majorFace : MajorFace)
    (majorIndex : nat) : list (Face num) :=
  let isCornerFace := (majorIndex <? 8)%nat in
  let faceRadius := fromQ 0.8 in
  let centerFace := {|
    id := length faces;
    color := WHITE;
    center := mcenter majorFace;
    normal := mnormal majorFace;
    vertices := generatePentagonVertices (mcenter majorFace)
                  (mnormal majorFace) (faceRadius * fromQ 0.3);
    neighbors := [];
    majorFace := majorIndex;
    ring := 0;
    ringPosition := 0
  |} in
  let faces := push faces centerFace in
  let faces := for_range 5
                 (pushRingFace majorFace majorIndex
                    (faceRadius * fromQ 0.6) (faceRadius * fromQ 0.25) 1)
                 faces in
  if negb isCornerFace
  then for_range 5
         (pushRingFace majorFace majorIndex
            faceRadius (faceRadius * fromQ 0.2) 2)
         faces
  else faces.

Definition generateKilominxFaces : list (Face num) :=
  let faces := [] in
  let majorFaces := generateMajorFaces in
  forEach majorFaces pushMajorFace faces.

(** *** Neighbours *)

(** The distance test of [calculateNeighbors]:
    [Math.sqrt(dx * dx + dy * dy + dz * dz) < 1.5]. *)
Definition withinThreshold (c o : Vector3 num) : bool :=
  let dx := x c - x o in
  let dy := y c - y o in
  let dz := z c - z o in
  let distance := Math_sqrt (dx * dx + dy * dy + dz * dz) in
  let threshold := fromQ 1.5 in
  distance <? threshold.

(** The inner [forEach] of [calculateNeighbors]: the indices of the faces
    within the threshold of [face], [index] itself skipped. *)
Definition neighborsOf (arr : list (Face num)) (face : Face num)
    (index : nat) : list nat :=
  forEach arr
    (fun neighbors otherFace otherIndex =>
       if (index =? otherIndex)%nat then neighbors
       else if withinThreshold (center face) (center otherFace)
            then push neighbors otherIndex
            else neighbors)
    [].

(** [face.neighbors = neighbors]. *)
Definition setNeighbors (face : Face num) (ns : list nat) : Face num :=
  {| id := id face; color := color face; center := center face;
     normal := normal face; vertices := vertices face; neighbors := ns;
     majorFace := majorFace face; ring := ring face;
     ringPosition := ringPosition face |}.

(** [facesWithNeighbors] is a copy of the array, not of the faces: the outer
    [forEach] assigns [neighbors] on the face objects it visits, one index
    after the other, and the inner loop reads the array as it then stands. *)
Definition calculateNeighbors (faces : list (Face num)) : list (Face num) :=
  let facesWithNeighbors := faces in
  for_range (length facesWithNeighbors)
    (fun arr index =>
       match nth_error arr index with
       | Some face => set_nth index (setNeighbors face (neighborsOf arr face index)) arr
       | None => arr
       end)
    facesWithNeighbors.

(** *** Main geometry creation *)

Definition createKilominxGeometry : KilominxGeometry num :=
  let faces := generateKilominxFaces in
  let facesWithNeighbors := calculateNeighbors faces in
  {| faces := facesWithNeighbors; radius := SCALE; scale := SCALE |}.

Definition colorMap : list FaceColor :=
  [ WHITE; YELLOW; DARK_BLUE; LIGHT_BLUE; RED; PINK;
    ORANGE; LIGHT_GREEN; DARK_GREEN; PURPLE; GREY; DARK_BROWN ].

(** One entry per face of the geometry:
    [colorMap[face.majorFace % colorMap.length]]; an index outside the array
    reads [undefined], here [None]. *)
Definition getSolvedStateColors : list (option FaceColor) :=
  let colors := [] in
  let geometry := createKilominxGeometry in
  forEach (faces geometry)
    (fun colors face _ =>
       let majorFaceColor :=
         nth_error colorMap (majorFace face mod length colorMap) in
       push colors majorFaceColor)
    colors.

(** The loop of [validateGeometry] over the faces.  A [Face] always carries
    its [center], [normal] and [vertices], so the test for a missing
    property never fires; what remains is the vertex count. *)
Fixpoint validateFaces (faces : list (Face num)) : bool :=
  match faces with
  | [] => true
  | face :: rest =>
      if negb (length (vertices face) =? 5)%nat then false
      else validateFaces rest
  end.

Definition validateGeometry (geometry : KilominxGeometry num) : bool :=
  let faces := faces geometry in
  if negb (length faces =? 62)%nat then false
  else validateFaces faces.

End Code.

End Full.

(** ** The simple model (src/lib/kilominx/geometry.ts) *)

Module Simple.

Section Code.
Context {num : Type} {A : Arith num}.

Definition createKilominxGeometry : KilominxGeometry num :=
  let faces := [] in
  let faces :=
    for_range 12
      (fun faces i =>
         let face := {|
           id := i;
           color := WHITE;
           center := mkVector3 (fromZ 0) (fromZ 0) (fromZ 0);
           normal := mkVector3 (fromZ 0) (fromZ 1) (fromZ 0);
           vertices := [];
           neighbors := [];
           majorFace := i;
           ring := 0;
           ringPosition := 0
         |} in
         push faces face)
      faces in
  {| faces := faces; radius := fromZ 2; scale := fromZ 2 |}.

Definition getSolvedStateColors : list FaceColor :=
  [ WHITE; YELLOW; DARK_BLUE; LIGHT_BLUE; RED; PINK;
    ORANGE; LIGHT_GREEN; DARK_GREEN; PURPLE; GREY; DARK_BROWN ].

(** [new Array(12).fill(FaceColor.WHITE)]. *)
Definition getDefaultColors : list FaceColor := repeat WHITE 12.

Definition validateGeometry (geometry : KilominxGeometry num) : bool :=
  (length (faces geometry) =? 12)%nat.

End Code.

End Simple.

(** ** The face overlay (lib/kilominx/face-overlay) *)

Module Overlay.

(** A call on the 2D context of a canvas, or an assignment to one of its
    properties.  The context is modelled by the sequence of these the code
    has issued on it. *)
Inductive CanvasOp (num : Type) : Type :=
  | clearRect (x y w h : num)
  | beginPath
  | moveTo (x y : num)
  | lineTo (x y : num)
  | closePath
  | fill
  | stroke
  | setFillStyle (style : string)
  | setStrokeStyle (style : string)
  | setLineWidth (w : num).
Arguments clearRect {num} _ _ _ _.
Arguments beginPath {num}.
Arguments moveTo {num} _ _.
Arguments lineTo {num} _ _.
Arguments closePath {num}.
Arguments fill {num}.
Arguments stroke {num}.
Arguments setFillStyle {num} _.
Arguments setStrokeStyle {num} _.
Arguments setLineWidth {num} _.

(** A [THREE.CanvasTexture] with the canvas it wraps: the canvas size (an
    integer, as the DOM keeps it), what was drawn on it, and the two flags
    the code sets. *)
Record Texture (num : Type) : Type := mkTexture {
  canvasWidth : nat;
  canvasHeight : nat;
  drawn : list (CanvasOp num);
  needsUpdate : bool;
  flipY : bool
}.
Arguments mkTexture {num} _ _ _ _ _.
Arguments canvasWidth {num} _.
Arguments canvasHeight {num} _.
Arguments drawn {num} _.
Arguments needsUpdate {num} _.
Arguments flipY {num} _.

Section Code.
Context {num : Type} {A : Arith num} {T : Trig num}.
Local Open Scope num_scope.

(** [(i * 2 * Math.PI) / 5 - Math.PI / 2]. *)
Definition cornerAngle (i : nat) : num :=
  (fromZ (Z.of_nat i) * fromZ 2 * Math_PI) / fromZ 5 - Math_PI / fromZ 2.

(** [if (i === 0) ctx.moveTo(x, y) else ctx.lineTo(x, y)]. *)
Definition moveOrLine (ctx : list (CanvasOp num)) (i : nat) (x y : num)
  : list (CanvasOp num) :=
  if (i =? 0)%nat then push ctx (moveTo x y) else push ctx (lineTo x y).

Definition drawPentagonBase (ctx : list (CanvasOp num)) (size : num)
    (color : FaceColor) : list (CanvasOp num) :=
  let centerX := size / fromZ 2 in
  let centerY := size / fromZ 2 in
  let radius := size * fromQ 0.45 in
  let ctx := push ctx beginPath in
  let ctx := for_range 5 (fun ctx i =>
    let angle := cornerAngle i in
    let x := centerX + Math_cos angle * radius in
    let y := centerY + Math_sin angle * radius in
    moveOrLine ctx i x y) ctx in
  let ctx := push ctx closePath in
  let ctx := push ctx (setFillStyle (FaceColor_value color)) in
  let ctx := push ctx fill in
  let ctx := push ctx (setStrokeStyle "#000000") in
  let ctx := push ctx (setLineWidth (fromZ 4)) in
  push ctx stroke.

Definition drawCenterStar (ctx : list (CanvasOp num))
    (centerX centerY radius : num) : list (CanvasOp num) :=
  let ctx := push ctx beginPath in
  let ctx := for_range 5 (fun ctx i =>
    let angle := cornerAngle i in
    let x := centerX + Math_cos angle * radius in
    let y := centerY + Math_sin angle * radius in
    moveOrLine ctx i x y) ctx in
  let ctx := push ctx closePath in
  let ctx := push ctx (setFillStyle "#000000") in
  push ctx fill.

Definition drawRadialLines (ctx : list (CanvasOp num))
    (centerX centerY size : num) : list (CanvasOp num) :=
  let innerRadius := size * fromQ 0.15 in
  let outerRadius := size * fromQ 0.4 in
  for_range 5 (fun ctx i =>
    let angle := cornerAngle i in
    let x1 := centerX + Math_cos angle * innerRadius in
    let y1 := centerY + Math_sin angle * innerRadius in
    let x2 := centerX + Math_cos angle * outerRadius in
    let y2 := centerY + Math_sin angle * outerRadius in
    let ctx := push ctx beginPath in
    let ctx := push ctx (moveTo x1 y1) in
    let ctx := push ctx (lineTo x2 y2) in
    push ctx stroke) ctx.

Definition drawConcentricRings (ctx : list (CanvasOp num))
    (centerX centerY size : num) : list (CanvasOp num) :=
  let rings := [fromQ 0.2; fromQ 0.32; fromQ 0.42] in
  forEach rings (fun ctx radiusRatio _ =>
    let radius := size * radiusRatio in
    let ctx := push ctx beginPath in
    let ctx := for_range 6 (fun ctx i =>
      let angle := cornerAngle i in
      let x := centerX + Math_cos angle * radius in
      let y := centerY + Math_sin angle * radius in
      moveOrLine ctx i x y) ctx in
    let ctx := push ctx closePath in
    push ctx stroke) ctx.

Definition drawEdgeSubdivisions (ctx : list (CanvasOp num))
    (centerX centerY size : num) : list (CanvasOp num) :=
  let radius1 := size * fromQ 0.25 in
  let radius2 := size * fromQ 0.35 in
  for_range 5 (fun ctx i =>
    for_range 2 (fun ctx j =>
      let baseAngle := cornerAngle i in
      let offset := (fromZ (Z.of_nat j) - fromQ 0.5) * fromQ 0.3 in
      let angle := baseAngle + offset in
      let x1 := centerX + Math_cos angle * radius1 in
      let y1 := centerY + Math_sin angle * radius1 in
      let x2 := centerX + Math_cos angle * radius2 in
      let y2 := centerY + Math_sin angle * radius2 in
      let ctx := push ctx beginPath in
      let ctx := push ctx (moveTo x1 y1) in
      let ctx := push ctx (lineTo x2 y2) in
      push ctx stroke) ctx) ctx.

Definition drawSubdivisionLines (ctx : list (CanvasOp num)) (size : num)
  : list (CanvasOp num) :=
  let centerX := size / fromZ 2 in
  let centerY := size / fromZ 2 in
  let ctx := push ctx (setStrokeStyle "#000000") in
  let ctx := push ctx (setLineWidth (fromZ 3)) in
  let ctx := drawCenterStar ctx centerX centerY (size * fromQ 0.15) in
  let ctx := drawRadialLines ctx centerX centerY size in
  let ctx := drawConcentricRings ctx centerX centerY size in
  drawEdgeSubdivisions ctx centerX centerY size.

(** [textureSize] becomes the width and height of a new canvas. *)
Definition createSubdividedFaceTexture (faceColor : FaceColor)
    (textureSize : nat) : Texture num :=
  let size := fromZ (Z.of_nat textureSize) in
  let ctx := [] in
  let ctx := push ctx (clearRect (fromZ 0) (fromZ 0) size size) in
  let ctx := drawPentagonBase ctx size faceColor in
  let ctx := drawSubdivisionLines ctx size in
  {| canvasWidth := textureSize; canvasHeight := textureSize;
     drawn := ctx; needsUpdate := true; flipY := false |}.

(** The default [textureSize = 512]. *)
Definition defaultTextureSize : nat := 512.

(** Draws again on the canvas of the texture, at the width of that canvas. *)
Definition updateFaceColor (texture : Texture num) (newColor : FaceColor)
  : Texture num :=
  let size := fromZ (Z.of_nat (canvasWidth texture)) in
  let ctx := drawn texture in
  let ctx := drawPentagonBase ctx size newColor in
  let ctx := drawSubdivisionLines ctx size in
  {| canvasWidth := canvasWidth texture; canvasHeight := canvasHeight texture;
     drawn := ctx; needsUpdate := true; flipY := flipY texture |}.

End Code.

End Overlay.

(** ** The renderer component (components/Cube/KilominxRenderer) *)

Module Renderer.

(** [mouseStateRef.current]. *)
Record MouseState (num : Type) : Type := mkMouseState {
  isMouseDown : bool;
  lastX : num;
  lastY : num;
  rotationX : num;
  rotationY : num
}.
Arguments mkMouseState {num} _ _ _ _ _.
Arguments isMouseDown {num} _.
Arguments lastX {num} _.
Arguments lastY {num} _.
Arguments rotationX {num} _.
Arguments rotationY {num} _.

(** What the component keeps across events: the mouse state, and the
    [rotation.x] and [rotation.y] of the mesh in [kilominxRef.current]
    ([None] while the mesh is not there yet). *)
Record ViewState (num : Type) : Type := mkViewState {
  mouseState : MouseState num;
  kilominx : option (num * num)
}.
Arguments mkViewState {num} _ _.
Arguments mouseState {num} _.
Arguments kilominx {num} _.

Section Code.
Context {num : Type} {A : Arith num}.
Local Open Scope num_scope.

Definition initialMouseState : MouseState num :=
  mkMouseState false (fromZ 0) (fromZ 0) (fromZ 0) (fromZ 0).

Definition handleMouseDown (st : ViewState num) (clientX clientY : num)
  : ViewState num :=
  let m := mouseState st in
  mkViewState
    (mkMouseState true clientX clientY (rotationX m) (rotationY m))
    (kilominx st).

Definition handleMouseMove (st : ViewState num) (clientX clientY : num)
  : ViewState num :=
  let m := mouseState st in
  match negb (isMouseDown m), kilominx st with
  | false, Some _ =>
      let deltaX := clientX - lastX m in
      let deltaY := clientY - lastY m in
      let rotationY' := rotationY m + deltaX * fromQ 0.01 in
      let rotationX' := rotationX m + deltaY * fromQ 0.01 in
      mkViewState
        (mkMouseState (isMouseDown m) clientX clientY rotationX' rotationY')
        (Some (rotationX', rotationY'))
  | _, _ => st
  end.

Definition handleMouseUp (st : ViewState num) : ViewState num :=
  let m := mouseState st in
  mkViewState
    (mkMouseState false (lastX m) (lastY m) (rotationX m) (rotationY m))
    (kilominx st).


(** The mouse events of the canvas element: [onMouseDown], [onMouseMove],
    and [onMouseUp] or [onMouseLeave], which share a handler. *)
Inductive MouseEvent : Type :=
  | MouseDown (clientX clientY : num)
  | MouseMove (clientX clientY : num)
  | MouseUp.

Definition dispatch (st : ViewState num) (e : MouseEvent) : ViewState num :=
  match e with
  | MouseDown clientX clientY => handleMouseDown st clientX clientY
  | MouseMove clientX clientY => handleMouseMove st clientX clientY
  | MouseUp => handleMouseUp st
  end.

(** The events of a session, handled one after the other. *)
Definition dispatchAll (events : list MouseEvent) (st : ViewState num)
  : ViewState num :=
  fold_left dispatch events st.

End Code.
Arguments MouseEvent : clear implicits.

(** [Math.floor(intersection.faceIndex / 2)]. *)
Definition clickedFaceIndex (faceIndex : nat) : nat := faceIndex / 2.

(** The groups the mount effect adds to the geometry, one per triangle [i]:
    [(start, count, materialIndex)] with
    [materialIndex = Math.floor(i / 10) % 12]. *)
Definition faceGroups (faceCount : nat) : list (nat * nat * nat) :=
  for_range faceCount (fun groups i =>
    let materialIndex := i / 10 in
    push groups (i * 3, 3, materialIndex mod 12)) [].

(** [newColors[faceIndex] = selectedColor] on a copy of the colours: inside
    the array the entry is replaced, past its end the array grows, the
    entries in between left empty ([None]). *)
Definition assignColor (colors : list (option FaceColor)) (faceIndex : nat)
    (selectedColor : FaceColor) : list (option FaceColor) :=
  if faceIndex <? length colors
  then set_nth faceIndex (Some selectedColor) colors
  else colors ++ repeat None (faceIndex - length colors) ++ [Some selectedColor].

End Renderer.

(** * Vocabulary of the properties *)

(** ** Layout of a geometry *)

(** The ids of an array of faces are its indices. *)
Definition idsAreIndices {num : Type} (fs : list (Face num)) : Prop :=
  map id fs = seq 0 (length fs).

(** The cell a face stands for: [(majorFace, ring, ringPosition)]. *)
Definition cellOf {num : Type} (f : Face num) : nat * nat * nat :=
  (majorFace f, ring f, ringPosition f).

(** The cells of ring [r] of major face [m], by ring position. *)
Definition ringCells (m r : nat) : list (nat * nat * nat) :=
  map (fun i => (m, r, i)) (seq 0 5).

(** Emission order within major face [m]: the center cell, the inner ring,
    and the outer ring unless [m] is one of the first 8. *)
Definition majorCells (m : nat) : list (nat * nat * nat) :=
  (m, 0, 0) :: ringCells m 1 ++ (if m <? 8 then [] else ringCells m 2).

Definition expectedLayout : list (nat * nat * nat) :=
  flat_map majorCells (seq 0 12).

(** Is [c] a cell of major face [m] in ring [r]? *)
Definition inRing (m r : nat) (c : nat * nat * nat) : bool :=
  let '(cm, cr, _) := c in (cm =? m) && (cr =? r).

(** The number of faces of a geometry that belong to major face [m] and
    ring [r]. *)
Definition countCells {num : Type} (g : KilominxGeometry num) (m r : nat)
  : nat :=
  length (filter (fun f => inRing m r (cellOf f)) (faces g)).

Definition fiveVertices {num : Type} (f : Face num) : Prop :=
  length (vertices f) = 5.

(** A face with its [neighbors] cleared: what [calculateNeighbors] leaves
    alone. *)
Definition forget {num : Type} (f : Face num) : Face num :=
  Full.setNeighbors f [].

Section Vocabulary.
Context {num : Type} {A : Arith num} {T : Trig num}.

(** [j] counts as a neighbour of the face at [index] with center [c]:
    another index, whose face in [fs] passes the distance test. *)
Definition isNeighbor (fs : list (Face num)) (c : Vector3 num)
    (index j : nat) : Prop :=
  j <> index /\
  exists o, nth_error fs j = Some o /\
            Full.withinThreshold c (center o) = true.

(** The face at index [i] of [arr] lists exactly its neighbours among
    [faces0]. *)
Definition neighborsDone (faces0 arr : list (Face num)) (i : nat) : Prop :=
  forall f, nth_error arr i = Some f ->
  forall j, In j (neighbors f) <-> isNeighbor faces0 (center f) i j.

(** Anchor [m]: the center of major face [m]. *)
Definition anchorOf (m : nat) : Vector3 num :=
  nth m Full.generateDodecahedronVertices
      (mkVector3 (fromZ 0) (fromZ 0) (fromZ 0)).

(** Where a cell is placed: the anchor itself for the center cell, and for
    ring position [i] the anchor moved by [(cos, sin, 0)] of the angle
    [(i * 2 * Math.PI) / 5], scaled by [0.8 * 0.6] (inner ring) or [0.8]
    (outer ring). *)
Definition cellCenter (anchor : Vector3 num) (r i : nat) : Vector3 num :=
  let direction :=
    mkVector3 (Math_cos (Full.ringAngle i)) (Math_sin (Full.ringAngle i))
              (fromZ 0) in
  match r with
  | 0 => anchor
  | 1 => Full.addVectors anchor
           (Full.scaleVector direction (nmul (fromQ 0.8) (fromQ 0.6)))
  | _ => Full.addVectors anchor (Full.scaleVector direction (fromQ 0.8))
  end.

(** The face the simple model builds at index [i]. *)
Definition simpleFace (i : nat) : Face num := {|
  id := i;
  color := WHITE;
  center := mkVector3 (fromZ 0) (fromZ 0) (fromZ 0);
  normal := mkVector3 (fromZ 0) (fromZ 1) (fromZ 0);
  vertices := [];
  neighbors := [];
  majorFace := i;
  ring := 0;
  ringPosition := 0
|}.

(** *** The pentagon, vertex by vertex *)

(** The reference axis [generatePentagonVertices] picks: the y axis, unless
    the normal is within about 26 degrees of it. *)
Definition pentagonUp (normal : Vector3 num) : Vector3 num :=
  if nlt (fromQ 0.9) (Math_abs (y normal))
  then Full.createVector3 (fromZ 1) (fromZ 0) (fromZ 0)
  else Full.createVector3 (fromZ 0) (fromZ 1) (fromZ 0).

Definition pentagonRight (normal : Vector3 num) : Vector3 num :=
  Full.normalizeVector (Full.crossProduct (pentagonUp normal) normal).

Definition pentagonForward (normal : Vector3 num) : Vector3 num :=
  Full.normalizeVector (Full.crossProduct normal (pentagonRight normal)).

(** Vertex [i]: the center moved by [right * (cos * radius)] plus
    [forward * (sin * radius)], at the angle [(i * 2 * Math.PI) / 5]. *)
Definition pentagonVertex (center normal : Vector3 num) (radius : num)
    (i : nat) : Vector3 num :=
  Full.addVectors center
    (Full.addVectors
       (Full.scaleVector (pentagonRight normal)
          (nmul (Math_cos (Full.ringAngle i)) radius))
       (Full.scaleVector (pentagonForward normal)
          (nmul (Math_sin (Full.ringAngle i)) radius))).

End Vocabulary.

(** ** Vectors over the reals *)

Definition dot (a b : Vector3 R) : R :=
  (x a * x b + y a * y b + z a * z b)%R.




(** ** Doubles *)

(** The square of a double, on its specification. *)
Definition SFsquare (a : spec_float) : spec_float := SF64mul a a.


(** The length [normalizeVector] computes, on doubles. *)
Definition floatLength (v : Vector3 float) : float :=
  PrimFloat.sqrt (x v * x v + y v * y v + z v * z v)%float.

(** The distance between two points, as the code would compute it. *)
Definition floatDistance (a b : Vector3 float) : float :=
  floatLength (mkVector3 (x a - x b) (y a - y b) (z a - z b))%float.

(** The pentagon radius [generateKilominxFaces] passes for a cell of the
    given ring: [0.8 * 0.3], [0.8 * 0.25] or [0.8 * 0.2]. *)
Definition pentagonRadiusOf (ring : nat) : float :=
  match ring with
  | 0 => fromQ (Arith := IEEE) 0.8 * fromQ (Arith := IEEE) 0.3
  | 1 => fromQ (Arith := IEEE) 0.8 * fromQ (Arith := IEEE) 0.25
  | _ => fromQ (Arith := IEEE) 0.8 * fromQ (Arith := IEEE) 0.2
  end%float.

(** The faces generated on the sample host. *)
Abbreviation sampleFaces :=
  (faces (Full.createKilominxGeometry (A := IEEE) (T := sampleHost)))
  (only parsing).
Abbreviation sampleDefault := (simpleFace (A := IEEE) 0) (only parsing).

(** ** Neighbours, in closed form *)

Section NeighbourVocabulary.
Context {num : Type} {A : Arith num}.

(** The indices, counted from [k], of the centers [cs] that pass the distance
    test against [c], [index] itself left out. *)
Fixpoint nearFrom (k : nat) (cs : list (Vector3 num)) (c : Vector3 num)
    (index : nat) : list nat :=
  match cs with
  | [] => []
  | o :: rest =>
      (if index =? k then []
       else if Full.withinThreshold c o then [k] else [])
      ++ nearFrom (S k) rest c index
  end.

(** Every face of [fs] with the neighbours its center calls for. *)
Definition withNeighbors (fs : list (Face num)) : list (Face num) :=
  map (fun p : nat * Face num =>
         Full.setNeighbors (snd p)
           (nearFrom 0 (map center fs) (center (snd p)) (fst p)))
      (combine (seq 0 (length fs)) fs).

End NeighbourVocabulary.

(** Is this a cell the data model allows: major face below 12, ring 0, 1 or
    2, ring position below 5 and 0 in ring 0, outer ring only from the
    ninth major face on? *)
Definition cellInRange (c : nat * nat * nat) : bool :=
  let '(m, r, i) := c in
  (m <? 12) && (r <=? 2) && (i <? 5)
  && (if r =? 0 then i =? 0 else true)
  && (if r =? 2 then 8 <=? m else true).

(** The computed length of [v] is 1 within 2^-50. *)
Definition unitWithin (v : Vector3 float) : bool :=
  PrimFloat.leb (PrimFloat.abs (floatLength v - 1)%float) 0x1p-50%float.


(** ** Canvas paths *)

(** Is every path of [ops] built in order: a [beginPath], then a [moveTo]
    before any [lineTo] or [closePath], and a point before it is filled or
    stroked?  [started] says that a path has been begun, [pointed] that it
    has a point. *)
Fixpoint pathsInOrder {num : Type} (started pointed : bool)
    (ops : list (Overlay.CanvasOp num)) : bool :=
  match ops with
  | [] => true
  | op :: rest =>
      match op with
      | Overlay.beginPath => pathsInOrder true false rest
      | Overlay.moveTo _ _ => started && pathsInOrder started true rest
      | Overlay.lineTo _ _ | Overlay.closePath | Overlay.fill
      | Overlay.stroke =>
          pointed && pathsInOrder started pointed rest
      | _ => pathsInOrder started pointed rest
      end
  end.

Definition isBeginPath {num : Type} (op : Overlay.CanvasOp num) : bool :=
  match op with Overlay.beginPath => true | _ => false end.

Definition isFill {num : Type} (op : Overlay.CanvasOp num) : bool :=
  match op with Overlay.fill => true | _ => false end.

Definition isStroke {num : Type} (op : Overlay.CanvasOp num) : bool :=
  match op with Overlay.stroke => true | _ => false end.

Definition isClearRect {num : Type} (op : Overlay.CanvasOp num) : bool :=
  match op with Overlay.clearRect _ _ _ _ => true | _ => false end.


(** ** Mouse sessions *)

(** The mesh, when there is one, is turned as the mouse state says. *)
Definition meshInSync {num : Type} (st : Renderer.ViewState num) : Prop :=
  match Renderer.kilominx st with
  | Some (rx, ry) =>
      rx = Renderer.rotationX (Renderer.mouseState st) /\
      ry = Renderer.rotationY (Renderer.mouseState st)
  | None => True
  end.


(** One [onMouseMove] event per position. *)
Definition moveEvents {num : Type} (moves : list (num * num))
  : list (Renderer.MouseEvent num) :=
  map (fun p => Renderer.MouseMove (fst p) (snd p)) moves.

(** * Lemmas *)

(** ** Loops *)

Lemma push_length {A : Type} (arr : list A) (a : A) :
  length (push arr a) = S (length arr).
Proof. unfold push. rewrite length_app. simpl. lia. Qed.

Lemma for_range_S {S : Type} (n : nat) (body : S -> nat -> S) (s : S) :
  for_range (Datatypes.S n) body s = body (for_range n body s) n.
Proof.
  unfold for_range. rewrite seq_S, fold_left_app. reflexivity.
Qed.

(** An invariant indexed by the loop counter. *)
Lemma for_range_ind {S : Type} (P : nat -> S -> Prop) (n : nat)
    (body : S -> nat -> S) (s : S) :
  P 0 s ->
  (forall i st, i < n -> P i st -> P (Datatypes.S i) (body st i)) ->
  P n (for_range n body s).
Proof.
  intros H0 Hstep. induction n as [|n IH].
  - exact H0.
  - rewrite for_range_S. apply Hstep; [lia|].
    apply IH. intros i st Hi. apply Hstep. lia.
Qed.

Lemma for_range_invariant {S : Type} (P : S -> Prop) (n : nat)
    (body : S -> nat -> S) (s : S) :
  P s -> (forall st i, P st -> P (body st i)) -> P (for_range n body s).
Proof.
  intros H0 Hstep. apply (for_range_ind (fun _ => P)); auto.
Qed.

Lemma forEach_from_invariant {A S : Type} (P : S -> Prop) (arr : list A)
    (body : S -> A -> nat -> S) :
  (forall st a i, P st -> P (body st a i)) ->
  forall k s, P s -> P (forEach_from k arr body s).
Proof.
  intros Hstep. induction arr as [|a rest IH]; intros k s Hs; simpl.
  - exact Hs.
  - apply IH. apply Hstep. exact Hs.
Qed.

Lemma forEach_invariant {A S : Type} (P : S -> Prop) (arr : list A)
    (body : S -> A -> nat -> S) (s : S) :
  P s -> (forall st a i, P st -> P (body st a i)) -> P (forEach arr body s).
Proof.
  intros Hs Hstep. unfold forEach. apply forEach_from_invariant; assumption.
Qed.

(** A [forEach] that pushes one value per element is a [map]. *)
Lemma forEach_from_push_map {A B : Type} (f : A -> B) (arr : list A) :
  forall k acc,
    forEach_from k arr (fun acc a _ => push acc (f a)) acc = acc ++ map f arr.
Proof.
  induction arr as [|a rest IH]; intros k acc; cbn [forEach_from map].
  - rewrite app_nil_r. reflexivity.
  - rewrite IH. unfold push. rewrite <- app_assoc. reflexivity.
Qed.

Lemma set_nth_length {A : Type} (i : nat) (a : A) (arr : list A) :
  length (set_nth i a arr) = length arr.
Proof.
  revert i. induction arr as [|b rest IH]; intros [|j]; simpl; auto.
Qed.

Lemma set_nth_same {A : Type} (i : nat) (a : A) (arr : list A) :
  i < length arr -> nth_error (set_nth i a arr) i = Some a.
Proof.
  revert i. induction arr as [|b rest IH]; intros [|j] H; simpl in *;
    try lia; auto. apply IH. lia.
Qed.

Lemma set_nth_other {A : Type} (i j : nat) (a : A) (arr : list A) :
  i <> j -> nth_error (set_nth i a arr) j = nth_error arr j.
Proof.
  revert i j. induction arr as [|b rest IH]; intros [|i] [|j] H; simpl;
    try reflexivity; try congruence. apply IH. congruence.
Qed.

Lemma set_nth_map {A B : Type} (f : A -> B) (i : nat) (a b : A)
    (arr : list A) :
  nth_error arr i = Some b -> f a = f b ->
  map f (set_nth i a arr) = map f arr.
Proof.
  revert i. induction arr as [|c rest IH]; intros [|j] Hb Hf; simpl in *;
    try discriminate.
  - injection Hb as ->. rewrite Hf. reflexivity.
  - rewrite (IH j); auto.
Qed.

(** ** Ids follow emission order *)

Section FullStructure.
Context {num : Type} {A : Arith num} {T : Trig num}.

Lemma idsAreIndices_push (fs : list (Face num)) (f : Face num) :
  idsAreIndices fs -> id f = length fs -> idsAreIndices (push fs f).
Proof.
  unfold idsAreIndices, push. intros Hfs Hid.
  rewrite map_app, length_app, Hfs. simpl.
  rewrite Nat.add_1_r, seq_S, Hid. reflexivity.
Qed.

Lemma pushRingFace_ids mf m os pr r (fs : list (Face num)) (i : nat) :
  idsAreIndices fs -> idsAreIndices (Full.pushRingFace mf m os pr r fs i).
Proof.
  intros H. unfold Full.pushRingFace. apply idsAreIndices_push; auto.
Qed.

Lemma pushMajorFace_ids (fs : list (Face num)) mf (m : nat) :
  idsAreIndices fs -> idsAreIndices (Full.pushMajorFace fs mf m).
Proof.
  intros H. unfold Full.pushMajorFace.
  assert (H1 : idsAreIndices
                 (for_range 5
                    (Full.pushRingFace mf m
                       (nmul (fromQ 0.8) (fromQ 0.6))
                       (nmul (fromQ 0.8) (fromQ 0.25)) 1)
                    (push fs
                       (mkFace (length fs) WHITE (Full.mcenter mf)
                          (Full.mnormal mf)
                          (Full.generatePentagonVertices (Full.mcenter mf)
                             (Full.mnormal mf) (nmul (fromQ 0.8) (fromQ 0.3)))
                          [] m 0 0)))).
  { apply for_range_invariant.
    - apply idsAreIndices_push; auto.
    - intros st i Hst. apply pushRingFace_ids, Hst. }
  destruct (negb (m <? 8)).
  - apply for_range_invariant; [exact H1|].
    intros st i Hst. apply pushRingFace_ids, Hst.
  - exact H1.
Qed.

Lemma generateKilominxFaces_ids : idsAreIndices Full.generateKilominxFaces.
Proof.
  unfold Full.generateKilominxFaces. apply forEach_invariant.
  - reflexivity.
  - intros st a i Hst. apply pushMajorFace_ids, Hst.
Qed.

End FullStructure.

(** ** What [calculateNeighbors] computes *)

Section Neighbours.
Context {num : Type} {A : Arith num}.

Lemma forget_center (f g : Face num) :
  forget f = forget g -> center f = center g.
Proof. intros H. apply (f_equal center) in H. exact H. Qed.

Lemma forget_id (f g : Face num) : forget f = forget g -> id f = id g.
Proof. intros H. apply (f_equal id) in H. exact H. Qed.

Lemma forget_nth_error (arr faces0 : list (Face num)) (j : nat) (o : Face num) :
  map forget arr = map forget faces0 ->
  nth_error arr j = Some o ->
  exists o0, nth_error faces0 j = Some o0 /\ forget o = forget o0.
Proof.
  intros Hmap Ho.
  apply (map_nth_error forget) in Ho. rewrite Hmap, nth_error_map in Ho.
  destruct (nth_error faces0 j) as [o0|]; simpl in Ho; [|discriminate].
  exists o0. split; congruence.
Qed.

Lemma neighborsOf_from (face : Face num) (index : nat) (arr : list (Face num)) :
  forall k acc j,
    In j (forEach_from k arr
            (fun neighbors otherFace otherIndex =>
               if index =? otherIndex then neighbors
               else if Full.withinThreshold (center face) (center otherFace)
                    then push neighbors otherIndex
                    else neighbors)
            acc)
    <-> In j acc \/
        (k <= j /\ j <> index /\
         exists o, nth_error arr (j - k) = Some o /\
                   Full.withinThreshold (center face) (center o) = true).
Proof.
  induction arr as [|a rest IH]; intros k acc j; cbn [forEach_from].
  - split; [auto|]. intros [H|(_ & _ & o & Ho & _)]; [exact H|].
    destruct (j - k); discriminate.
  - rewrite IH. clear IH. split.
    + intros [Hacc|(Hk & Hj & o & Ho & Hw)].
      * destruct (Nat.eqb_spec index k) as [->|Hne]; [auto|].
        destruct (Full.withinThreshold (center face) (center a)) eqn:Ha;
          [|auto].
        unfold push in Hacc. apply in_app_or in Hacc.
        destruct Hacc as [Hacc|[<-|[]]]; [auto|].
        right. split; [lia|]. split; [congruence|].
        exists a. rewrite Nat.sub_diag. auto.
      * right. split; [lia|]. split; [exact Hj|]. exists o. split; [|exact Hw].
        replace (j - k) with (S (j - S k)) by lia. exact Ho.
    + intros [Hacc|(Hk & Hj & o & Ho & Hw)].
      * left. destruct (index =? k); [exact Hacc|].
        destruct (Full.withinThreshold (center face) (center a));
          [|exact Hacc].
        unfold push. apply in_or_app. auto.
      * destruct (Nat.eq_dec j k) as [->|Hne].
        -- left. rewrite Nat.sub_diag in Ho. injection Ho as ->.
           destruct (Nat.eqb_spec index k) as [->|_]; [congruence|].
           rewrite Hw. unfold push. apply in_or_app. right. left. reflexivity.
        -- right. split; [lia|]. split; [exact Hj|]. exists o.
           split; [|exact Hw].
           replace (j - k) with (S (j - S k)) in Ho by lia. exact Ho.
Qed.

Lemma neighborsOf_spec (arr : list (Face num)) (face : Face num)
    (index j : nat) :
  In j (Full.neighborsOf arr face index) <-> isNeighbor arr (center face) index j.
Proof.
  unfold Full.neighborsOf, forEach, isNeighbor. rewrite neighborsOf_from.
  rewrite Nat.sub_0_r. split.
  - intros [[]|(_ & Hj & H)]. auto.
  - intros (Hj & H). right. split; [lia|]. auto.
Qed.

Lemma isNeighbor_forget (arr faces0 : list (Face num)) c index j :
  map forget arr = map forget faces0 ->
  isNeighbor arr c index j -> isNeighbor faces0 c index j.
Proof.
  intros Hmap (Hj & o & Ho & Hw). split; [exact Hj|].
  destruct (forget_nth_error _ _ _ _ Hmap Ho) as (o0 & Ho0 & Hf).
  exists o0. split; [exact Ho0|]. rewrite <- (forget_center _ _ Hf). exact Hw.
Qed.

(** [calculateNeighbors] changes nothing but the [neighbors] of each face,
    and sets them to the indices of the other faces whose center is within
    the threshold. *)
Lemma calculateNeighbors_spec (faces0 : list (Face num)) :
  map forget (Full.calculateNeighbors faces0) = map forget faces0 /\
  forall i, i < length faces0 ->
            neighborsDone faces0 (Full.calculateNeighbors faces0) i.
Proof.
  unfold Full.calculateNeighbors.
  apply (for_range_ind
           (fun k arr => map forget arr = map forget faces0 /\
                         forall i, i < k -> neighborsDone faces0 arr i)).
  - split; [reflexivity|]. intros i Hi. lia.
  - intros index arr Hindex [Hmap Hdone].
    destruct (nth_error arr index) as [face|] eqn:Hface.
    + assert (Hlen : index < length arr).
      { apply nth_error_Some. congruence. }
      split.
      * rewrite <- Hmap. apply set_nth_map with (b := face); auto.
      * intros i Hi f Hf j.
        destruct (Nat.eq_dec index i) as [<-|Hne].
        -- rewrite set_nth_same in Hf by exact Hlen. injection Hf as <-.
           cbn [neighbors center Full.setNeighbors].
           rewrite neighborsOf_spec. split.
           ++ apply isNeighbor_forget. exact Hmap.
           ++ apply isNeighbor_forget. symmetry. exact Hmap.
        -- rewrite set_nth_other in Hf by exact Hne.
           apply Hdone; [lia|exact Hf].
    + exfalso. apply nth_error_None in Hface.
      apply (f_equal (@length _)) in Hmap. rewrite !length_map in Hmap. lia.
Qed.

Lemma calculateNeighbors_length (faces0 : list (Face num)) :
  length (Full.calculateNeighbors faces0) = length faces0.
Proof.
  destruct (calculateNeighbors_spec faces0) as [Hmap _].
  apply (f_equal (@length _)) in Hmap. rewrite !length_map in Hmap. exact Hmap.
Qed.

(** Every field but [neighbors] survives [calculateNeighbors]. *)
Lemma calculateNeighbors_map {B : Type} (g : Face num -> B)
    (faces0 : list (Face num)) :
  (forall f, g (forget f) = g f) ->
  map g (Full.calculateNeighbors faces0) = map g faces0.
Proof.
  intros Hg. destruct (calculateNeighbors_spec faces0) as [Hmap _].
  apply (f_equal (map g)) in Hmap. rewrite !map_map in Hmap.
  rewrite (map_ext _ g Hg), (map_ext _ g Hg) in Hmap. exact Hmap.
Qed.

(** *** Symmetry, given a symmetric distance test *)

Section Symmetry.
Hypothesis withinThreshold_sym :
  forall a b : Vector3 num, Full.withinThreshold a b = Full.withinThreshold b a.

Lemma calculateNeighbors_symmetric (faces0 : list (Face num))
    (a b : Face num) :
  idsAreIndices faces0 ->
  In a (Full.calculateNeighbors faces0) ->
  In b (Full.calculateNeighbors faces0) ->
  (In (id b) (neighbors a) -> In (id a) (neighbors b)) /\
  ~ In (id a) (neighbors a).
Proof.
  intros Hids Ha Hb.
  destruct (calculateNeighbors_spec faces0) as [Hmap Hdone].
  assert (Hidx : forall f i, nth_error (Full.calculateNeighbors faces0) i = Some f ->
                             id f = i /\ i < length faces0 /\
                             exists f0, nth_error faces0 i = Some f0 /\
                                        center f0 = center f).
  { intros f i Hf.
    destruct (forget_nth_error _ _ _ _ Hmap Hf) as (f0 & Hf0 & Hfg).
    assert (Hi : i < length faces0) by (apply nth_error_Some; congruence).
    split; [|split; [exact Hi|]].
    - rewrite (forget_id _ _ Hfg).
      apply (map_nth_error id) in Hf0. rewrite Hids, nth_error_seq in Hf0.
      destruct (Nat.ltb_spec i (length faces0)); [|lia].
      injection Hf0 as Hf0. auto.
    - exists f0. split; [exact Hf0|]. symmetry. apply forget_center, Hfg. }
  apply In_nth_error in Ha. destruct Ha as [i Ha].
  apply In_nth_error in Hb. destruct Hb as [j Hb].
  destruct (Hidx a i Ha) as (Hia & Hi & a0 & Ha0 & Hca).
  destruct (Hidx b j Hb) as (Hjb & Hj & b0 & Hb0 & Hcb).
  rewrite Hia, Hjb. split.
  - intros Hin. apply (Hdone i Hi a Ha) in Hin.
    destruct Hin as (Hne & o & Ho & Hw).
    apply (Hdone j Hj b Hb). split; [congruence|].
    exists a0. split; [exact Ha0|].
    rewrite Hca, withinThreshold_sym.
    rewrite Hb0 in Ho. injection Ho as <-. rewrite <- Hcb. exact Hw.
  - intros Hin. apply (Hdone i Hi a Ha) in Hin. destruct Hin as [Hne _].
    congruence.
Qed.

End Symmetry.

End Neighbours.

(** ** IEEE arithmetic: the distance test is symmetric *)

(** Rounding to nearest does not look at the sign. *)
Lemma binary_round_negb (s : bool) (m : positive) (e : Z) :
  binary_round prec emax (negb s) m e = SFopp (binary_round prec emax s m e).
Proof.
  unfold binary_round.
  destruct (shl_align m e _) as [mz ez].
  unfold binary_round_aux.
  destruct (shr_fexp prec emax (Z.pos mz) ez loc_Exact) as [mrs e'].
  destruct (shr_fexp prec emax _ e' loc_Exact) as [mrs2 e2].
  destruct (shr_m mrs2); cbn [SFopp]; try reflexivity.
  destruct (Z.leb e2 _); reflexivity.
Qed.

Lemma binary_normalize_opp (m e : Z) :
  binary_normalize prec emax (- m) e false
  = match m with
    | Z0 => S754_zero false
    | _ => SFopp (binary_normalize prec emax m e false)
    end.
Proof.
  destruct m as [|p|p]; simpl; try reflexivity.
  - apply (binary_round_negb false).
  - pose proof (binary_round_negb true p e) as H. cbn [negb] in H. rewrite H.
    destruct (binary_round prec emax true p e) as [s|s| |s m' e']; simpl;
      try destruct s; reflexivity.
Qed.

Lemma SFsquare_opp (a : spec_float) : SFsquare (SFopp a) = SFsquare a.
Proof.
  destruct a as [s|s| |s m e]; unfold SFsquare; simpl; try reflexivity;
    destruct s; reflexivity.
Qed.

Lemma SFsub_finite_swap (sa : bool) (ma : positive) (ea : Z)
    (sb : bool) (mb : positive) (eb : Z) :
  SFsquare (SF64sub (S754_finite sa ma ea) (S754_finite sb mb eb))
  = SFsquare (SF64sub (S754_finite sb mb eb) (S754_finite sa ma ea)).
Proof.
  unfold SF64sub, SFsub.
  rewrite (Z.min_comm eb ea).
  set (ez := Z.min ea eb).
  set (u := cond_Zopp sa _). set (v := cond_Zopp sb _).
  replace (v - u)%Z with (- (u - v))%Z by lia.
  rewrite binary_normalize_opp.
  destruct (u - v)%Z; try reflexivity; symmetry; apply SFsquare_opp.
Qed.

Lemma SFsub_swap_square (a b : spec_float) :
  SFsquare (SF64sub a b) = SFsquare (SF64sub b a).
Proof.
  destruct a as [sa|sa| |sa ma ea], b as [sb|sb| |sb mb eb];
    try apply SFsub_finite_swap;
    try (destruct sa, sb; reflexivity);
    try (destruct sa; reflexivity);
    try (destruct sb; reflexivity);
    try reflexivity.
Qed.

(** [(a - b) * (a - b)] and [(b - a) * (b - a)] are the same double, whatever
    [a] and [b] are (infinities and NaN included). *)
Lemma float_sub_swap_square (a b : float) :
  PrimFloat.mul (PrimFloat.sub a b) (PrimFloat.sub a b)
  = PrimFloat.mul (PrimFloat.sub b a) (PrimFloat.sub b a).
Proof.
  apply Prim2SF_inj. rewrite !mul_spec, !sub_spec. apply SFsub_swap_square.
Qed.

Lemma IEEE_withinThreshold_sym (a b : Vector3 float) :
  Full.withinThreshold (A := IEEE) a b = Full.withinThreshold (A := IEEE) b a.
Proof.
  unfold Full.withinThreshold. cbn [nsub nmul nadd Math_sqrt nlt fromQ IEEE].
  rewrite (float_sub_swap_square (x a) (x b)),
          (float_sub_swap_square (y a) (y b)),
          (float_sub_swap_square (z a) (z b)).
  reflexivity.
Qed.

(** In exact arithmetic the test is symmetric too. *)
Lemma Exact_withinThreshold_sym (a b : Vector3 R) :
  Full.withinThreshold (A := Exact) a b = Full.withinThreshold (A := Exact) b a.
Proof.
  unfold Full.withinThreshold. cbn [nsub nmul nadd Math_sqrt nlt fromQ Exact].
  replace ((x a - x b) * (x a - x b) + (y a - y b) * (y a - y b)
           + (z a - z b) * (z a - z b))%R
    with ((x b - x a) * (x b - x a) + (y b - y a) * (y b - y a)
          + (z b - z a) * (z b - z a))%R by ring.
  reflexivity.
Qed.

(** ** The layout of the generated faces *)

Section FullLayout.
Context {num : Type} {A : Arith num} {T : Trig num}.

Lemma generateKilominxFaces_layout :
  map cellOf Full.generateKilominxFaces = expectedLayout.
Proof. vm_compute. reflexivity. Qed.

Lemma generateKilominxFaces_centers :
  map center Full.generateKilominxFaces
  = map (fun c : nat * nat * nat =>
           let '(m, r, i) := c in cellCenter (anchorOf m) r i)
        expectedLayout.
Proof. vm_compute. reflexivity. Qed.

Lemma createKilominxGeometry_faces :
  faces Full.createKilominxGeometry
  = Full.calculateNeighbors Full.generateKilominxFaces.
Proof. reflexivity. Qed.

Lemma generateKilominxFaces_length : length Full.generateKilominxFaces = 92.
Proof.
  rewrite <- (length_map cellOf), generateKilominxFaces_layout. reflexivity.
Qed.

Lemma createKilominxGeometry_length :
  length (faces Full.createKilominxGeometry) = 92.
Proof.
  cbn [faces Full.createKilominxGeometry].
  rewrite calculateNeighbors_length. apply generateKilominxFaces_length.
Qed.

Lemma createKilominxGeometry_layout :
  map cellOf (faces Full.createKilominxGeometry) = expectedLayout.
Proof.
  cbn [faces Full.createKilominxGeometry].
  rewrite calculateNeighbors_map by reflexivity.
  apply generateKilominxFaces_layout.
Qed.

Lemma createKilominxGeometry_ids :
  idsAreIndices (faces Full.createKilominxGeometry).
Proof.
  unfold idsAreIndices. cbn [faces Full.createKilominxGeometry].
  rewrite calculateNeighbors_map by reflexivity.
  rewrite calculateNeighbors_length. apply generateKilominxFaces_ids.
Qed.

(** *** Five vertices per face *)

Lemma generatePentagonVertices_length (c n : Vector3 num) (r : num) :
  length (Full.generatePentagonVertices c n r) = 5.
Proof. reflexivity. Qed.

Lemma pushRingFace_fiveVertices mf m os pr r (fs : list (Face num)) (i : nat) :
  Forall fiveVertices fs ->
  Forall fiveVertices (Full.pushRingFace mf m os pr r fs i).
Proof.
  intros H. unfold Full.pushRingFace, push. apply Forall_app. split; [exact H|].
  constructor; [|constructor]. apply generatePentagonVertices_length.
Qed.

Lemma pushMajorFace_fiveVertices (fs : list (Face num)) mf (m : nat) :
  Forall fiveVertices fs -> Forall fiveVertices (Full.pushMajorFace fs mf m).
Proof.
  intros H. unfold Full.pushMajorFace.
  set (fs1 := push fs _).
  assert (H1 : Forall fiveVertices fs1).
  { unfold fs1, push. apply Forall_app. split; [exact H|].
    constructor; [|constructor]. apply generatePentagonVertices_length. }
  set (fs2 := for_range 5 _ fs1).
  assert (H2 : Forall fiveVertices fs2).
  { unfold fs2. apply for_range_invariant; [exact H1|].
    intros st i Hst. apply pushRingFace_fiveVertices, Hst. }
  destruct (negb (m <? 8)); [|exact H2].
  apply for_range_invariant; [exact H2|].
  intros st i Hst. apply pushRingFace_fiveVertices, Hst.
Qed.

Lemma generateKilominxFaces_fiveVertices :
  Forall fiveVertices Full.generateKilominxFaces.
Proof.
  unfold Full.generateKilominxFaces. apply forEach_invariant.
  - constructor.
  - intros st a i Hst. apply pushMajorFace_fiveVertices, Hst.
Qed.

Lemma createKilominxGeometry_fiveVertices :
  Forall fiveVertices (faces Full.createKilominxGeometry).
Proof.
  cbn [faces Full.createKilominxGeometry].
  apply Forall_forall. intros f Hf.
  apply (in_map (fun f => length (vertices f))) in Hf.
  rewrite calculateNeighbors_map in Hf by reflexivity.
  apply in_map_iff in Hf. destruct Hf as (f0 & Hlen & Hf0).
  pose proof generateKilominxFaces_fiveVertices as Hall.
  rewrite Forall_forall in Hall. unfold fiveVertices. rewrite <- Hlen.
  apply Hall, Hf0.
Qed.

End FullLayout.

(** ** The simple model's faces *)

Section SimpleStructure.
Context {num : Type} {A : Arith num}.

Lemma simple_faces :
  faces Simple.createKilominxGeometry = map simpleFace (seq 0 12).
Proof. reflexivity. Qed.

End SimpleStructure.

(** ** Counting cells *)

Lemma filter_map_length {B C : Type} (g : B -> C) (q : C -> bool)
    (l : list B) :
  length (filter (fun b => q (g b)) l) = length (filter q (map g l)).
Proof.
  induction l as [|b l IH]; simpl; [reflexivity|].
  destruct (q (g b)); simpl; rewrite IH; reflexivity.
Qed.

(** ** Solved-state colours *)

Section FullColors.
Context {num : Type} {A : Arith num} {T : Trig num}.

Lemma createKilominxGeometry_majorFace_range :
  Forall (fun f => majorFace f < 12) (faces Full.createKilominxGeometry).
Proof.
  apply Forall_forall. intros f Hf.
  apply (in_map cellOf) in Hf. rewrite createKilominxGeometry_layout in Hf.
  assert (Hall : forallb (fun c : nat * nat * nat => fst (fst c) <? 12)
                   expectedLayout = true) by reflexivity.
  rewrite forallb_forall in Hall. apply Hall in Hf.
  apply Nat.ltb_lt in Hf. exact Hf.
Qed.

Lemma getSolvedStateColors_per_face :
  Full.getSolvedStateColors
  = map (fun f => nth_error Full.colorMap (majorFace f))
        (faces Full.createKilominxGeometry).
Proof.
  unfold Full.getSolvedStateColors, forEach.
  rewrite (forEach_from_push_map
             (fun f => nth_error Full.colorMap
                         (majorFace f mod length Full.colorMap))).
  cbn [app]. apply map_ext_in. intros f Hf.
  pose proof createKilominxGeometry_majorFace_range as Hall.
  rewrite Forall_forall in Hall. apply Hall in Hf.
  change (length Full.colorMap) with 12.
  rewrite Nat.mod_small by exact Hf. reflexivity.
Qed.

End FullColors.

(** ** The pentagon, vertex by vertex *)

Lemma generatePentagonVertices_vertices {num : Type} {A : Arith num}
    {T : Trig num} (center normal : Vector3 num) (radius : num) :
  Full.generatePentagonVertices center normal radius
  = map (pentagonVertex center normal radius) (seq 0 5).
Proof. reflexivity. Qed.

(** ** Exact arithmetic: what the geometry means *)

Section ExactGeometry.
Local Open Scope R_scope.




















End ExactGeometry.

(** ** Doubles: where rounding shows *)

(** The literals of the code, as the doubles a JavaScript engine reads. *)
Lemma IEEE_literals :
  fromQ (Arith := IEEE) 0.9 = 0x1.ccccccccccccdp-1%float /\
  fromQ (Arith := IEEE) 0.8 = 0x1.999999999999ap-1%float /\
  fromQ (Arith := IEEE) 0.6 = 0x1.3333333333333p-1%float /\
  fromQ (Arith := IEEE) 0.3 = 0x1.3333333333333p-2%float /\
  fromQ (Arith := IEEE) 0.25 = 0x1p-2%float /\
  fromQ (Arith := IEEE) 0.2 = 0x1.999999999999ap-3%float /\
  fromQ (Arith := IEEE) 1.5 = 0x1.8p+0%float.
Proof. repeat split; vm_compute; reflexivity. Qed.

(** With the normal [(0, 0, 1)] the frame is [right = (1, 0, 0)] and
    [forward = (0, 1, 0)], and [Math.cos(0) = 1], [Math.sin(0) = 0] on every
    host: the first vertex is the center moved by [radius] along x, in
    doubles. *)
Lemma generatePentagonVertices_first_vertex (T : Trig float)
    (c : Vector3 float) (r : float) :
  Math_cos 0%float = 1%float -> Math_sin 0%float = 0%float ->
  nth_error (Full.generatePentagonVertices (A := IEEE) (T := T) c
               (mkVector3 0 0 1)%float r) 0
  = Some (mkVector3 (x c + (1 * (1 * r) + 0 * (0 * r)))
                    (y c + (0 * (1 * r) + 1 * (0 * r)))
                    (z c + (0 * (1 * r) + 0 * (0 * r))))%float.
Proof.
  intros Hcos Hsin. rewrite generatePentagonVertices_vertices.
  cbn [map seq nth_error]. unfold pentagonVertex.
  change (Full.ringAngle (A := IEEE) 0) with 0%float.
  rewrite Hcos, Hsin.
  assert (Hright : pentagonRight (A := IEEE) (mkVector3 0 0 1)%float
                   = (mkVector3 1 0 0)%float) by (vm_compute; reflexivity).
  assert (Hforward : pentagonForward (A := IEEE) (mkVector3 0 0 1)%float
                     = (mkVector3 0 1 0)%float) by (vm_compute; reflexivity).
  rewrite Hright, Hforward. reflexivity.
Qed.

(** The normals of the 12 anchors, which [normalizeVector] computes from
    the anchors, have length 1 within 1e-15 in doubles. *)
Lemma anchor_normals_unit :
  forallb (fun mf =>
             PrimFloat.leb
               (PrimFloat.abs (floatLength (Full.mnormal mf) - 1)%float)
               0x1p-50%float)
    (Full.generateMajorFaces (A := IEEE)) = true.
Proof. vm_compute. reflexivity. Qed.

(** On the sample host every vertex of every generated face is at its
    pentagon radius from the face center, within 2^-50, in doubles: at the
    sizes the generator works with, rounding stays far below any
    tolerance. *)
Lemma sample_pentagons_within_tolerance :
  forallb (fun f =>
             forallb (fun v =>
                        PrimFloat.leb
                          (PrimFloat.abs
                             (floatDistance v (center f)
                              - pentagonRadiusOf (ring f))%float)
                          0x1p-50%float)
               (vertices f))
    sampleFaces = true.
Proof. vm_compute. reflexivity. Qed.

(** ** [calculateNeighbors], in closed form *)

Section NeighboursClosed.
Context {num : Type} {A : Arith num}.

Lemma neighborsOf_nearFrom (face : Face num) (index : nat)
    (arr : list (Face num)) :
  forall k acc,
    forEach_from k arr
      (fun neighbors otherFace otherIndex =>
         if index =? otherIndex then neighbors
         else if Full.withinThreshold (center face) (center otherFace)
              then push neighbors otherIndex
              else neighbors)
      acc
    = acc ++ nearFrom k (map center arr) (center face) index.
Proof.
  induction arr as [|o rest IH]; intros k acc; cbn [forEach_from map nearFrom].
  - rewrite app_nil_r. reflexivity.
  - rewrite IH. destruct (index =? k).
    + reflexivity.
    + destruct (Full.withinThreshold (center face) (center o)).
      * unfold push. rewrite <- app_assoc. reflexivity.
      * reflexivity.
Qed.

Lemma neighborsOf_closed (arr : list (Face num)) (face : Face num)
    (index : nat) :
  Full.neighborsOf arr face index
  = nearFrom 0 (map center arr) (center face) index.
Proof.
  unfold Full.neighborsOf, forEach. rewrite neighborsOf_nearFrom. reflexivity.
Qed.

Lemma forget_map_center (arr faces0 : list (Face num)) :
  map forget arr = map forget faces0 -> map center arr = map center faces0.
Proof.
  intros H. apply (f_equal (map center)) in H. rewrite !map_map in H.
  exact H.
Qed.

Lemma withNeighbors_nth_error (fs : list (Face num)) (i : nat) :
  nth_error (withNeighbors fs) i
  = option_map
      (fun f => Full.setNeighbors f (nearFrom 0 (map center fs) (center f) i))
      (nth_error fs i).
Proof.
  unfold withNeighbors. rewrite nth_error_map.
  destruct (nth_error fs i) as [f|] eqn:Hf.
  - assert (Hi : i < length fs) by (apply nth_error_Some; congruence).
    assert (Hc : nth_error (combine (seq 0 (length fs)) fs) i = Some (i, f)).
    { rewrite (nth_error_nth' _ (0, f)) by (rewrite length_combine, length_seq; lia).
      rewrite combine_nth by (rewrite length_seq; reflexivity).
      rewrite seq_nth by exact Hi.
      rewrite (nth_error_nth _ _ _ Hf). reflexivity. }
    rewrite Hc. reflexivity.
  - assert (Hc : nth_error (combine (seq 0 (length fs)) fs) i = None).
    { apply nth_error_None. rewrite length_combine, length_seq.
      apply nth_error_None in Hf. lia. }
    rewrite Hc. reflexivity.
Qed.

(** [calculateNeighbors], in closed form. *)
Lemma calculateNeighbors_closed (fs : list (Face num)) :
  Full.calculateNeighbors fs = withNeighbors fs.
Proof.
  assert (H : map forget (Full.calculateNeighbors fs) = map forget fs /\
              forall j,
                nth_error (Full.calculateNeighbors fs) j
                = if j <? length fs
                  then option_map
                         (fun f => Full.setNeighbors f
                                     (nearFrom 0 (map center fs) (center f) j))
                         (nth_error fs j)
                  else nth_error fs j).
  { unfold Full.calculateNeighbors.
    apply (for_range_ind
             (fun k arr =>
                map forget arr = map forget fs /\
                forall j,
                  nth_error arr j
                  = if j <? k
                    then option_map
                           (fun f => Full.setNeighbors f
                                       (nearFrom 0 (map center fs) (center f) j))
                           (nth_error fs j)
                    else nth_error fs j)).
    - split; [reflexivity|]. intros j. reflexivity.
    - intros index arr Hindex [Hmap Hnth].
      pose proof (Hnth index) as Hidx. rewrite Nat.ltb_irrefl in Hidx.
      destruct (nth_error fs index) as [face|] eqn:Hface.
      2:{ apply nth_error_None in Hface. lia. }
      rewrite Hidx. split.
      + rewrite <- Hmap. apply set_nth_map with (b := face); auto.
      + intros j. destruct (Nat.eq_dec index j) as [<-|Hne].
        * rewrite set_nth_same
            by (apply nth_error_Some; rewrite Hidx; discriminate).
          rewrite (proj2 (Nat.ltb_lt index (S index))) by lia.
          rewrite Hface. cbn [option_map]. rewrite neighborsOf_closed.
          rewrite (forget_map_center _ _ Hmap). reflexivity.
        * rewrite set_nth_other by exact Hne. rewrite Hnth.
          destruct (Nat.ltb_spec j index), (Nat.ltb_spec j (S index));
            try reflexivity; lia. }
  destruct H as [_ Hnth].
  apply nth_error_ext. intros i. rewrite withNeighbors_nth_error, Hnth.
  destruct (Nat.ltb_spec i (length fs)) as [Hi|Hi]; [reflexivity|].
  apply nth_error_None in Hi. rewrite Hi. reflexivity.
Qed.

(** [setNeighbors] overwrites. *)
Lemma setNeighbors_twice (f : Face num) (a b : list nat) :
  Full.setNeighbors (Full.setNeighbors f a) b = Full.setNeighbors f b.
Proof. reflexivity. Qed.

Lemma withNeighbors_centers (fs : list (Face num)) :
  map center (withNeighbors fs) = map center fs.
Proof.
  rewrite <- calculateNeighbors_closed.
  apply calculateNeighbors_map. reflexivity.
Qed.

Lemma withNeighbors_idempotent (fs : list (Face num)) :
  withNeighbors (withNeighbors fs) = withNeighbors fs.
Proof.
  apply nth_error_ext. intros i.
  rewrite !withNeighbors_nth_error, withNeighbors_centers.
  destruct (nth_error fs i) as [f|]; reflexivity.
Qed.

(** The indices [nearFrom] lists increase, start at [k] or later and stay
    below [k + length cs]. *)
Lemma nearFrom_bounds k (cs : list (Vector3 num)) c index j :
  In j (nearFrom k cs c index) -> k <= j < k + length cs /\ j <> index.
Proof.
  revert k. induction cs as [|o rest IH]; intros k Hin; cbn [nearFrom] in Hin.
  - destruct Hin.
  - apply in_app_or in Hin. destruct Hin as [Hin|Hin].
    + destruct (Nat.eqb_spec index k) as [->|Hne]; [destruct Hin|].
      destruct (Full.withinThreshold c o); [|destruct Hin].
      destruct Hin as [<-|[]]. cbn [length]. split; [lia|congruence].
    + apply IH in Hin. cbn [length]. lia.
Qed.

Lemma nearFrom_sorted k (cs : list (Vector3 num)) c index :
  StronglySorted lt (nearFrom k cs c index).
Proof.
  revert k. induction cs as [|o rest IH]; intros k; cbn [nearFrom].
  - constructor.
  - assert (Htail : Forall (lt k) (nearFrom (S k) rest c index)).
    { apply Forall_forall. intros j Hj. apply nearFrom_bounds in Hj. lia. }
    destruct (index =? k); [apply IH|].
    destruct (Full.withinThreshold c o); [|apply IH].
    cbn [app]. constructor; [apply IH|exact Htail].
Qed.

End NeighboursClosed.

(** ** Colours and normals of the generated faces *)

Section FullFields.
Context {num : Type} {A : Arith num} {T : Trig num}.

Lemma generateKilominxFaces_colors :
  map color Full.generateKilominxFaces = repeat WHITE 92.
Proof. vm_compute. reflexivity. Qed.

Lemma generateKilominxFaces_normals :
  map normal Full.generateKilominxFaces
  = map (fun c : nat * nat * nat =>
           Full.normalizeVector (anchorOf (fst (fst c))))
        expectedLayout.
Proof. vm_compute. reflexivity. Qed.

End FullFields.

Lemma colorMap_injective (m n : nat) :
  m < 12 -> n < 12 ->
  nth_error Full.colorMap m = nth_error Full.colorMap n -> m = n.
Proof.
  intros Hm Hn H.
  do 12 (destruct m as [|m]; [
    do 12 (destruct n as [|n]; [first [reflexivity | discriminate H]|]); lia |]).
  lia.
Qed.

(** ** Exact arithmetic: the five angles, the golden ratio *)

Section ExactAngles.
Local Open Scope R_scope.










(** anchors *)
Lemma PHI_squares :
  Full.PHI (A := Exact) * Full.PHI (A := Exact)
  + Full.PHI_INV (A := Exact) * Full.PHI_INV (A := Exact) = 3.
Proof.
  unfold Full.PHI_INV, Full.PHI. cbv [nadd nmul ndiv Math_sqrt fromZ Exact].
  assert (H5 : sqrt 5 * sqrt 5 = 5) by (apply sqrt_sqrt; lra).
  assert (Hp : 0 < sqrt 5) by (apply sqrt_lt_R0; lra).
  set (s := sqrt 5) in *.
  replace (1 / ((1 + s) / 2)) with ((s - 1) / 2).
  - nra.
  - field_simplify_eq; [nra|lra].
Qed.

End ExactAngles.

(** ** The overlay draws by appending *)

Lemma for_range_push_map {B : Type} (f : nat -> B) (n : nat) (acc : list B) :
  for_range n (fun acc i => push acc (f i)) acc = acc ++ map f (seq 0 n).
Proof.
  induction n as [|n IH].
  - cbn. rewrite app_nil_r. reflexivity.
  - rewrite for_range_S, IH, seq_S, map_app. unfold push.
    rewrite <- app_assoc. reflexivity.
Qed.

Section OverlayLemmas.
Context {num : Type} {A : Arith num} {T : Trig num}.

(** The drawing functions only append to what the context holds. *)
Lemma drawPentagonBase_appends (ctx : list (Overlay.CanvasOp num)) size color :
  Overlay.drawPentagonBase ctx size color
  = ctx ++ Overlay.drawPentagonBase [] size color.
Proof.
  unfold Overlay.drawPentagonBase, for_range, push, Overlay.moveOrLine.
  cbn [fold_left seq Nat.eqb app]. unfold push.
  repeat rewrite <- app_assoc. reflexivity.
Qed.

Lemma drawSubdivisionLines_appends (ctx : list (Overlay.CanvasOp num)) size :
  Overlay.drawSubdivisionLines ctx size
  = ctx ++ Overlay.drawSubdivisionLines [] size.
Proof.
  unfold Overlay.drawSubdivisionLines, Overlay.drawCenterStar,
    Overlay.drawRadialLines, Overlay.drawConcentricRings,
    Overlay.drawEdgeSubdivisions, forEach, for_range, push, Overlay.moveOrLine.
  cbn [fold_left seq Nat.eqb app forEach_from]. unfold push.
  repeat rewrite <- app_assoc. reflexivity.
Qed.

End OverlayLemmas.

Section OverlayExact.
Local Open Scope R_scope.








End OverlayExact.

(** ** The renderer *)


Section RendererExact.
Local Open Scope R_scope.



End RendererExact.

Lemma faceGroups_closed (faceCount : nat) :
  Renderer.faceGroups faceCount
  = map (fun i => (i * 3, 3, (i / 10) mod 12)) (seq 0 faceCount).
Proof.
  unfold Renderer.faceGroups.
  rewrite (for_range_push_map (fun i => (i * 3, 3, (i / 10) mod 12))).
  reflexivity.
Qed.

(** * The claims *)

(** C1.  What the code does: the full-model [createKilominxGeometry] returns
    92 faces (12 center cells, 60 inner-ring cells and 20 outer-ring cells),
    not the 62 its own documentation and validator name; the simple-model
    [createKilominxGeometry] returns 12 faces. *)
Theorem createKilominxGeometry_face_counts
    (num : Type) (A : Arith num) (T : Trig num) :
  length (faces (Full.createKilominxGeometry (A := A) (T := T))) = 92 /\
  length (faces (Simple.createKilominxGeometry (A := A))) = 12.
Proof.
  split.
  - apply createKilominxGeometry_length.
  - reflexivity.
Qed.

(** C2, as stated, fails: on no host does the full-model
    [getSolvedStateColors] return 12 values; it returns one per face. *)
Lemma full_getSolvedStateColors_not_twelve :
  ~ exists T : Trig float,
      length (Full.getSolvedStateColors (A := IEEE) (T := T)) = 12.
Proof.
  intros [T H].
  rewrite getSolvedStateColors_per_face, length_map,
    createKilominxGeometry_length in H.
  discriminate H.
Qed.

(** C2, amended.  The full-model [getSolvedStateColors] returns one colour
    per face of the generated geometry, in face order: the entry of the
    palette [colorMap] at the face's major face (always one of the 12
    entries).  The palette is WHITE, YELLOW, DARK_BLUE, LIGHT_BLUE, RED,
    PINK, ORANGE, LIGHT_GREEN, DARK_GREEN, PURPLE, GREY, DARK_BROWN: 12
    colours with distinct values.  The simple-model [getSolvedStateColors]
    returns exactly that palette. *)
Theorem getSolvedStateColors_palette
    (num : Type) (A : Arith num) (T : Trig num) :
  let g := Full.createKilominxGeometry (A := A) (T := T) in
  Full.getSolvedStateColors (A := A) (T := T)
  = map (fun f => nth_error Full.colorMap (majorFace f)) (faces g) /\
  Forall (fun f => majorFace f < length Full.colorMap) (faces g) /\
  Full.colorMap
  = [ WHITE; YELLOW; DARK_BLUE; LIGHT_BLUE; RED; PINK;
      ORANGE; LIGHT_GREEN; DARK_GREEN; PURPLE; GREY; DARK_BROWN ] /\
  length Full.colorMap = 12 /\
  NoDup (map FaceColor_value Full.colorMap) /\
  Simple.getSolvedStateColors = Full.colorMap.
Proof.
  intros g.
  split; [apply getSolvedStateColors_per_face|].
  split; [apply createKilominxGeometry_majorFace_range|].
  split; [reflexivity|]. split; [reflexivity|]. split; [|reflexivity].
  cbn [map Full.colorMap FaceColor_value].
  repeat (constructor; [cbn [In]; intuition discriminate|]).
  constructor.
Qed.

(** C3.  The full-model [validateGeometry] returns false on the geometry
    the full-model [createKilominxGeometry] returns: the generated face
    count fails the validator's comparison with 62. *)
Theorem validateGeometry_rejects_own_geometry
    (num : Type) (A : Arith num) (T : Trig num) :
  let g := Full.createKilominxGeometry (A := A) (T := T) in
  (length (faces g) =? 62) = false /\
  Full.validateGeometry g = false.
Proof.
  intros g. unfold Full.validateGeometry, g.
  rewrite createKilominxGeometry_length. split; reflexivity.
Qed.

(** C4, as stated, fails on the simple model: its faces have no vertices. *)
Lemma simple_faces_lack_vertices :
  ~ Forall (fun f : Face float => length (vertices f) = 5)
      (faces (Simple.createKilominxGeometry (A := IEEE))).
Proof.
  intros H. rewrite simple_faces in H. inversion H as [|f l Hf _].
  discriminate Hf.
Qed.

(** C4, amended.  Every face of the full-model geometry has a vertices list
    of length exactly 5; every face of the simple-model geometry has an
    empty vertices list. *)
Theorem vertices_per_face (num : Type) (A : Arith num) (T : Trig num) :
  Forall (fun f => length (vertices f) = 5)
    (faces (Full.createKilominxGeometry (A := A) (T := T))) /\
  Forall (fun f => vertices f = [])
    (faces (Simple.createKilominxGeometry (A := A))).
Proof.
  split.
  - apply createKilominxGeometry_fiveVertices.
  - rewrite simple_faces. apply Forall_forall. intros f Hf.
    apply in_map_iff in Hf. destruct Hf as (i & <- & _). reflexivity.
Qed.




(** C6.  In the geometry the full-model [createKilominxGeometry] returns,
    on IEEE doubles and whatever the host's [Math.cos] and [Math.sin]: if
    the id of face [b] is among the neighbors of face [a] then the id of
    [a] is among the neighbors of [b], and the id of [a] is not among its
    own neighbors. *)
Theorem neighbors_symmetric_irreflexive (T : Trig float) (a b : Face float) :
  let g := Full.createKilominxGeometry (A := IEEE) (T := T) in
  In a (faces g) -> In b (faces g) ->
  (In (id b) (neighbors a) -> In (id a) (neighbors b)) /\
  ~ In (id a) (neighbors a).
Proof.
  intros g Ha Hb. unfold g in Ha, Hb.
  rewrite createKilominxGeometry_faces in Ha, Hb.
  apply (calculateNeighbors_symmetric (A := IEEE) IEEE_withinThreshold_sym
           (Full.generateKilominxFaces (A := IEEE) (T := T)) a b).
  - apply generateKilominxFaces_ids.
  - exact Ha.
  - exact Hb.
Qed.

Lemma neighbors_symmetric_irreflexive_witness :
  In (nth 0 sampleFaces sampleDefault) sampleFaces /\
  In (nth 1 sampleFaces sampleDefault) sampleFaces /\
  In (id (nth 1 sampleFaces sampleDefault))
     (neighbors (nth 0 sampleFaces sampleDefault)) /\
  In (id (nth 0 sampleFaces sampleDefault))
     (neighbors (nth 1 sampleFaces sampleDefault)) /\
  ~ In (id (nth 0 sampleFaces sampleDefault))
       (neighbors (nth 0 sampleFaces sampleDefault)).
Proof.
  assert (Ha : In (nth 0 sampleFaces sampleDefault) sampleFaces).
  { apply nth_In. rewrite createKilominxGeometry_length. lia. }
  assert (Hb : In (nth 1 sampleFaces sampleDefault) sampleFaces).
  { apply nth_In. rewrite createKilominxGeometry_length. lia. }
  assert (Hab : In (id (nth 1 sampleFaces sampleDefault))
                   (neighbors (nth 0 sampleFaces sampleDefault))).
  { vm_compute. left. reflexivity. }
  destruct (neighbors_symmetric_irreflexive sampleHost
              (nth 0 sampleFaces sampleDefault)
              (nth 1 sampleFaces sampleDefault) Ha Hb) as [Hsym Hirr].
  split; [exact Ha|]. split; [exact Hb|]. split; [exact Hab|].
  split; [exact (Hsym Hab)|exact Hirr].
Defined.

(** C7.  In both models the ids are the indices [0 .. n-1] in order, so they
    are contiguous and without repeats.  In the full model the faces come
    major face by major face in anchor order, each as its center cell, its 5
    inner cells by ring position and, from the ninth major face on, its 5
    outer cells by ring position; ring position [i] sits at the angle
    [(i * 2 * Math.PI) / 5] around the anchor. *)
Theorem ids_follow_emission_order (num : Type) (A : Arith num) (T : Trig num) :
  let full := Full.createKilominxGeometry (A := A) (T := T) in
  let simple := Simple.createKilominxGeometry (A := A) in
  map id (faces full) = seq 0 (length (faces full)) /\
  NoDup (map id (faces full)) /\
  map cellOf (faces full) = expectedLayout /\
  map center (faces full)
  = map (fun c : nat * nat * nat =>
           let '(m, r, i) := c in cellCenter (anchorOf m) r i)
        expectedLayout /\
  map id (faces simple) = seq 0 (length (faces simple)) /\
  NoDup (map id (faces simple)).
Proof.
  intros full simple.
  assert (Hfull : map id (faces full) = seq 0 (length (faces full))).
  { apply createKilominxGeometry_ids. }
  assert (Hsimple : map id (faces simple) = seq 0 (length (faces simple))).
  { reflexivity. }
  split; [exact Hfull|]. split; [rewrite Hfull; apply seq_NoDup|].
  split; [apply createKilominxGeometry_layout|].
  split.
  - unfold full. cbn [faces Full.createKilominxGeometry].
    rewrite calculateNeighbors_map by reflexivity.
    apply generateKilominxFaces_centers.
  - split; [exact Hsimple|]. rewrite Hsimple. apply seq_NoDup.
Qed.

(** C8.  In the full-model geometry each major face [m < 12] has exactly one
    face with [ring = 0] and exactly five with [ring = 1]; it has no face
    with [ring = 2] when it is one of the first 8, and exactly five
    otherwise. *)
Theorem ring_counts (num : Type) (A : Arith num) (T : Trig num) (m : nat) :
  m < 12 ->
  let g := Full.createKilominxGeometry (A := A) (T := T) in
  countCells g m 0 = 1 /\
  countCells g m 1 = 5 /\
  countCells g m 2 = (if m <? 8 then 0 else 5).
Proof.
  intros Hm g. unfold countCells, g.
  rewrite !(filter_map_length cellOf), createKilominxGeometry_layout.
  do 12 (destruct m as [|m]; [repeat split; reflexivity|]).
  lia.
Qed.

Lemma ring_counts_witness :
  9 < 12 /\
  countCells (Full.createKilominxGeometry (A := IEEE) (T := sampleHost)) 9 0 = 1 /\
  countCells (Full.createKilominxGeometry (A := IEEE) (T := sampleHost)) 9 1 = 5 /\
  countCells (Full.createKilominxGeometry (A := IEEE) (T := sampleHost)) 9 2 = 5.
Proof.
  split; [lia|].
  apply (ring_counts float IEEE sampleHost 9). lia.
Defined.




(** C10.  The simple-model geometry has 12 faces, and the face at index
    [i < 12] has [id = i], [majorFace = i], [ring = 0], [ringPosition = 0],
    color WHITE, center (0,0,0), normal (0,1,0), no vertices and no
    neighbors. *)
Theorem simple_faces_degenerate (num : Type) (A : Arith num) (i : nat) :
  i < 12 ->
  let g := Simple.createKilominxGeometry (A := A) in
  length (faces g) = 12 /\
  nth_error (faces g) i
  = Some {| id := i;
            color := WHITE;
            center := mkVector3 (fromZ 0) (fromZ 0) (fromZ 0);
            normal := mkVector3 (fromZ 0) (fromZ 1) (fromZ 0);
            vertices := [];
            neighbors := [];
            majorFace := i;
            ring := 0;
            ringPosition := 0 |}.
Proof.
  intros Hi g. split; [reflexivity|].
  unfold g. rewrite simple_faces.
  rewrite (map_nth_error simpleFace i (seq 0 12) (d := i)); [reflexivity|].
  rewrite nth_error_seq. destruct (Nat.ltb_spec i 12); [reflexivity|lia].
Qed.

Lemma simple_faces_degenerate_witness :
  3 < 12 /\
  length (faces (Simple.createKilominxGeometry (A := IEEE))) = 12 /\
  nth_error (faces (Simple.createKilominxGeometry (A := IEEE))) 3
  = Some (mkFace 3 WHITE
            (mkVector3 0 0 0)%float (mkVector3 0 1 0)%float [] [] 3 0 0).
Proof.
  split; [lia|].
  apply (simple_faces_degenerate float IEEE 3). lia.
Defined.

(** * Further properties *)

(** ** Neighbours *)



(** X2.  [calculateNeighbors] keeps the number of faces and every field of
    every face but [neighbors], and running it on its own result changes
    nothing. *)
Theorem calculateNeighbors_idempotent {num : Type} {A : Arith num}
    (fs : list (Face num)) :
  length (Full.calculateNeighbors fs) = length fs /\
  map forget (Full.calculateNeighbors fs) = map forget fs /\
  Full.calculateNeighbors (Full.calculateNeighbors fs)
  = Full.calculateNeighbors fs.
Proof.
  split; [apply calculateNeighbors_length|].
  split; [apply calculateNeighbors_spec|].
  rewrite !calculateNeighbors_closed. apply withNeighbors_idempotent.
Qed.

(** X3.  Every [neighbors] list [calculateNeighbors] builds is strictly
    increasing (so without repeats) and holds only indices of the list of
    faces. *)
Theorem calculateNeighbors_sorted_in_range {num : Type} {A : Arith num}
    (fs : list (Face num)) :
  Forall (fun f => StronglySorted lt (neighbors f) /\
                   Forall (fun j => j < length fs) (neighbors f))
         (Full.calculateNeighbors fs).
Proof.
  rewrite calculateNeighbors_closed. unfold withNeighbors.
  apply Forall_forall. intros f Hf. apply in_map_iff in Hf.
  destruct Hf as ([i f0] & <- & _). cbn [neighbors Full.setNeighbors snd fst].
  split; [apply nearFrom_sorted|].
  apply Forall_forall. intros j Hj. apply nearFrom_bounds in Hj.
  rewrite length_map in Hj. lia.
Qed.

(** ** The generated geometry *)

(** X4.  Every face of the full-model geometry has [majorFace] below 12,
    [ring] at most 2, [ringPosition] below 5 and equal to 0 in ring 0, sits
    in ring 2 only on major faces 8 to 11, and is WHITE. *)
Theorem generated_faces_in_range (num : Type) (A : Arith num) (T : Trig num) :
  Forall (fun f =>
            majorFace f < 12 /\ ring f <= 2 /\ ringPosition f < 5 /\
            (ring f = 0 -> ringPosition f = 0) /\
            (ring f = 2 -> 8 <= majorFace f) /\
            color f = WHITE)
    (faces (Full.createKilominxGeometry (A := A) (T := T))).
Proof.
  apply Forall_forall. intros f Hf.
  assert (Hcell : cellInRange (cellOf f) = true).
  { apply (in_map cellOf) in Hf. rewrite createKilominxGeometry_layout in Hf.
    assert (Hall : forallb cellInRange expectedLayout = true) by reflexivity.
    rewrite forallb_forall in Hall. apply Hall, Hf. }
  assert (Hcolor : color f = WHITE).
  { apply (in_map color) in Hf. rewrite createKilominxGeometry_faces in Hf.
    rewrite calculateNeighbors_map in Hf by reflexivity.
    rewrite generateKilominxFaces_colors in Hf.
    apply repeat_spec in Hf. exact Hf. }
  unfold cellInRange, cellOf in Hcell.
  rewrite !andb_true_iff in Hcell.
  destruct Hcell as [[[[Hm Hr] Hi] H0] H2].
  apply Nat.ltb_lt in Hm. apply Nat.leb_le in Hr. apply Nat.ltb_lt in Hi.
  repeat split; try assumption.
  - intros Hr0. rewrite Hr0 in H0. apply Nat.eqb_eq in H0. exact H0.
  - intros Hr2. rewrite Hr2 in H2. apply Nat.leb_le in H2. exact H2.
Qed.

(** X5.  On doubles, whatever the host's [Math.cos] and [Math.sin]: the
    normal of every generated face is the normalized anchor of its major
    face, and its computed length is 1 within 2^-50. *)
Theorem generated_normals_unit (T : Trig float) :
  let g := Full.createKilominxGeometry (A := IEEE) (T := T) in
  map normal (faces g)
  = map (fun f => Full.normalizeVector (A := IEEE)
                    (anchorOf (A := IEEE) (majorFace f))) (faces g) /\
  forallb unitWithin (map normal (faces g)) = true.
Proof.
  intros g. unfold g.
  assert (Hn : map normal (faces (Full.createKilominxGeometry (A := IEEE) (T := T)))
               = map (fun c : nat * nat * nat =>
                        Full.normalizeVector (A := IEEE)
                          (anchorOf (A := IEEE) (fst (fst c))))
                     expectedLayout).
  { rewrite createKilominxGeometry_faces.
    rewrite calculateNeighbors_map by reflexivity.
    apply generateKilominxFaces_normals. }
  split.
  - rewrite Hn. rewrite <- (createKilominxGeometry_layout (A := IEEE) (T := T)).
    rewrite map_map. reflexivity.
  - rewrite Hn. vm_compute. reflexivity.
Qed.

(** X6.  On doubles, whatever the host's [Math.cos] and [Math.sin]: the
    center of every generated face has exactly the z coordinate of the
    anchor of its major face.  The ring cells are moved in the global x-y
    plane, not in the plane of their major face. *)
Theorem ring_cells_keep_anchor_z (T : Trig float) :
  let g := Full.createKilominxGeometry (A := IEEE) (T := T) in
  map (fun f => z (center f)) (faces g)
  = map (fun f => z (anchorOf (A := IEEE) (majorFace f))) (faces g).
Proof.
  intros g. unfold g.
  transitivity
    (map (fun c : nat * nat * nat => z (anchorOf (A := IEEE) (fst (fst c))))
         expectedLayout).
  - rewrite <- (map_map center z).
    rewrite createKilominxGeometry_faces.
    rewrite calculateNeighbors_map by reflexivity.
    rewrite generateKilominxFaces_centers. rewrite map_map.
    vm_compute. reflexivity.
  - rewrite <- (createKilominxGeometry_layout (A := IEEE) (T := T)).
    rewrite map_map. reflexivity.
Qed.

(** X7.  The full-model [getSolvedStateColors] gives every face a colour
    (never [undefined]), and gives two faces the same colour exactly when
    they belong to the same major face. *)
Theorem solved_colors_by_major_face (num : Type) (A : Arith num) (T : Trig num)
    (i j : nat) (f g : Face num) :
  let fs := faces (Full.createKilominxGeometry (A := A) (T := T)) in
  let colors := Full.getSolvedStateColors (A := A) (T := T) in
  nth_error fs i = Some f -> nth_error fs j = Some g ->
  (exists c, nth_error colors i = Some (Some c)) /\
  (nth_error colors i = nth_error colors j <-> majorFace f = majorFace g).
Proof.
  intros fs colors Hf Hg. unfold colors.
  rewrite getSolvedStateColors_per_face. fold fs.
  rewrite !nth_error_map, Hf, Hg. cbn [option_map].
  pose proof (createKilominxGeometry_majorFace_range (A := A) (T := T)) as Hall.
  rewrite Forall_forall in Hall.
  assert (Hmf : majorFace f < 12) by (apply Hall; eapply nth_error_In; exact Hf).
  assert (Hmg : majorFace g < 12) by (apply Hall; eapply nth_error_In; exact Hg).
  split.
  - destruct (nth_error Full.colorMap (majorFace f)) as [c|] eqn:Hc.
    + exists c. reflexivity.
    + apply nth_error_None in Hc. change (length Full.colorMap) with 12 in Hc. lia.
  - split.
    + intros H. injection H as H. apply colorMap_injective; assumption.
    + intros H. rewrite H. reflexivity.
Qed.

Lemma solved_colors_by_major_face_witness :
  nth_error sampleFaces 3 = Some (nth 3 sampleFaces sampleDefault) /\
  nth_error sampleFaces 7 = Some (nth 7 sampleFaces sampleDefault) /\
  (exists c, nth_error (Full.getSolvedStateColors (A := IEEE) (T := sampleHost)) 3
             = Some (Some c)) /\
  (nth_error (Full.getSolvedStateColors (A := IEEE) (T := sampleHost)) 3
   = nth_error (Full.getSolvedStateColors (A := IEEE) (T := sampleHost)) 7
   <-> majorFace (nth 3 sampleFaces sampleDefault)
       = majorFace (nth 7 sampleFaces sampleDefault)).
Proof.
  assert (H3 : nth_error sampleFaces 3 = Some (nth 3 sampleFaces sampleDefault)).
  { apply nth_error_nth'. rewrite createKilominxGeometry_length. lia. }
  assert (H7 : nth_error sampleFaces 7 = Some (nth 7 sampleFaces sampleDefault)).
  { apply nth_error_nth'. rewrite createKilominxGeometry_length. lia. }
  split; [exact H3|]. split; [exact H7|].
  exact (solved_colors_by_major_face float IEEE sampleHost 3 7 _ _ H3 H7).
Defined.

(** X8.  The simple-model [validateGeometry] accepts the simple-model
    geometry; the full-model [validateGeometry] rejects it, and the
    simple-model [validateGeometry] rejects the full-model geometry. *)
Theorem validators_tell_models_apart (num : Type) (A : Arith num) (T : Trig num) :
  Simple.validateGeometry (Simple.createKilominxGeometry (A := A)) = true /\
  Full.validateGeometry (Simple.createKilominxGeometry (A := A)) = false /\
  Simple.validateGeometry (Full.createKilominxGeometry (A := A) (T := T)) = false.
Proof.
  split; [reflexivity|]. split; [reflexivity|].
  unfold Simple.validateGeometry. rewrite createKilominxGeometry_length.
  reflexivity.
Qed.

(** ** Exact arithmetic *)

Section ExactProperties.
Local Open Scope R_scope.

(** X9.  In exact arithmetic the 12 anchors [generateDodecahedronVertices]
    returns all lie on the sphere of squared radius 12 around the origin. *)
Theorem anchors_on_sphere :
  length (Full.generateDodecahedronVertices (A := Exact)) = 12%nat /\
  Forall (fun v => dot v v = 12)
    (Full.generateDodecahedronVertices (A := Exact)).
Proof.
  split; [reflexivity|].
  pose proof PHI_squares as Hphi.
  unfold Full.generateDodecahedronVertices, forEach.
  cbn [forEach_from Full.cubeVertices Full.axisVertices Full.pushScaled push
       app firstn].
  unfold Full.createVector3, Full.SCALE. unfold dot.
  cbv [nmul nneg fromZ Exact] in *. cbn [x y z].
  set (p := Full.PHI) in *. set (q := Full.PHI_INV) in *.
  repeat (constructor; [cbv beta; cbn [x y z]; nra|]). constructor.
Qed.















End ExactProperties.

(** ** The face overlay *)

(** X16.  The face colour enters a texture in one place: the operations
    [createSubdividedFaceTexture] issues for a colour are those for WHITE
    with the fill style at index 8 replaced by the colour's value. *)
Theorem texture_color_enters_once (num : Type) (A : Arith num) (T : Trig num)
    (c : FaceColor) (size : nat) :
  let white := Overlay.drawn
                 (Overlay.createSubdividedFaceTexture (A := A) (T := T)
                    WHITE size) in
  Overlay.drawn (Overlay.createSubdividedFaceTexture (A := A) (T := T) c size)
  = firstn 8 white ++ Overlay.setFillStyle (FaceColor_value c)
    :: skipn 9 white.
Proof. reflexivity. Qed.

(** X17.  [updateFaceColor] draws over what the canvas holds without
    clearing it: it appends the operations a new texture of that colour
    and canvas width gets, less the initial [clearRect]; it sets
    [needsUpdate] and keeps the canvas size and [flipY]. *)
Theorem updateFaceColor_redraws (num : Type) (A : Arith num) (T : Trig num)
    (t : Overlay.Texture num) (c : FaceColor) :
  let t' := Overlay.updateFaceColor (A := A) (T := T) t c in
  Overlay.drawn t'
  = Overlay.drawn t
    ++ skipn 1 (Overlay.drawn
                  (Overlay.createSubdividedFaceTexture (A := A) (T := T) c
                     (Overlay.canvasWidth t))) /\
  Overlay.needsUpdate t' = true /\
  Overlay.canvasWidth t' = Overlay.canvasWidth t /\
  Overlay.canvasHeight t' = Overlay.canvasHeight t /\
  Overlay.flipY t' = Overlay.flipY t.
Proof.
  intros t'. split; [|repeat split].
  unfold t', Overlay.updateFaceColor, Overlay.createSubdividedFaceTexture.
  cbn [Overlay.drawn].
  rewrite drawSubdivisionLines_appends, drawPentagonBase_appends.
  rewrite (drawSubdivisionLines_appends (Overlay.drawPentagonBase (push [] _) _ _)).
  rewrite (drawPentagonBase_appends (push [] _)).
  unfold push. cbn [app skipn]. rewrite <- app_assoc. reflexivity.
Qed.

(** X18.  Whatever the colour and the size, a new texture is drawn as 20
    paths, each begun with [beginPath] and given a [moveTo] before any
    [lineTo], [closePath], [fill] or [stroke]; 2 fills and 19 strokes are
    issued, and [clearRect] only as the first operation. *)
Theorem texture_paths_in_order (num : Type) (A : Arith num) (T : Trig num)
    (c : FaceColor) (size : nat) :
  let ops := Overlay.drawn
               (Overlay.createSubdividedFaceTexture (A := A) (T := T) c size) in
  pathsInOrder false false ops = true /\
  length (filter isBeginPath ops) = 20 /\
  length (filter isFill ops) = 2 /\
  length (filter isStroke ops) = 19 /\
  map isClearRect ops = true :: repeat false (length ops - 1).
Proof. repeat split; vm_compute; reflexivity. Qed.

(** ** The renderer *)

(** X20.  Mouse events keep the mesh turned as the mouse state says: if
    [rotation.x] and [rotation.y] of the mesh equal [rotationX] and
    [rotationY] before a sequence of events, they do after it. *)
Theorem mesh_follows_mouse_state (num : Type) (A : Arith num)
    (events : list (Renderer.MouseEvent num)) (st : Renderer.ViewState num) :
  meshInSync st -> meshInSync (Renderer.dispatchAll events st).
Proof.
  unfold Renderer.dispatchAll. revert st.
  induction events as [|e events IH]; intros st Hst; cbn [fold_left].
  - exact Hst.
  - apply IH. destruct e as [cx cy|cx cy|]; cbn [Renderer.dispatch].
    + exact Hst.
    + unfold Renderer.handleMouseMove.
      destruct (negb (Renderer.isMouseDown (Renderer.mouseState st)));
        [exact Hst|].
      destruct (Renderer.kilominx st) as [p|] eqn:Hk; [|exact Hst].
      unfold meshInSync. cbn. split; reflexivity.
    + exact Hst.
Qed.

Lemma mesh_follows_mouse_state_witness :
  meshInSync
    (Renderer.mkViewState (Renderer.initialMouseState (A := IEEE))
       (Some (0, 0)%float)) /\
  meshInSync
    (Renderer.dispatchAll (A := IEEE)
       [Renderer.MouseDown 10 20; Renderer.MouseMove 30 50; Renderer.MouseUp;
        Renderer.MouseMove 5 5]%float
       (Renderer.mkViewState (Renderer.initialMouseState (A := IEEE))
          (Some (0, 0)%float))).
Proof.
  assert (H : meshInSync
                (Renderer.mkViewState (Renderer.initialMouseState (A := IEEE))
                   (Some (0, 0)%float))).
  { split; reflexivity. }
  split; [exact H|].
  exact (mesh_follows_mouse_state float IEEE _ _ H).
Defined.

(** X21.  After the button is released (or the pointer leaves), mouse moves
    change nothing, however many follow. *)
Theorem moves_after_release_do_nothing (num : Type) (A : Arith num)
    (moves : list (num * num)) (st : Renderer.ViewState num) :
  Renderer.dispatchAll (Renderer.MouseUp :: moveEvents moves) st
  = Renderer.handleMouseUp st.
Proof.
  unfold Renderer.dispatchAll. cbn [fold_left Renderer.dispatch].
  assert (Hup : Renderer.isMouseDown
                  (Renderer.mouseState (Renderer.handleMouseUp st)) = false)
    by reflexivity.
  revert Hup. generalize (Renderer.handleMouseUp st). clear st.
  induction moves as [|p moves IH]; intros st Hup; cbn [moveEvents map fold_left].
  - reflexivity.
  - cbn [Renderer.dispatch]. unfold Renderer.handleMouseMove at 1.
    rewrite Hup. cbn [negb]. apply IH. exact Hup.
Qed.

(** X22.  While there is no mesh, no sequence of mouse events creates one
    or changes the recorded rotation. *)
Theorem no_mesh_no_rotation (num : Type) (A : Arith num)
    (events : list (Renderer.MouseEvent num)) (st : Renderer.ViewState num) :
  Renderer.kilominx st = None ->
  let st' := Renderer.dispatchAll events st in
  Renderer.kilominx st' = None /\
  Renderer.rotationX (Renderer.mouseState st')
  = Renderer.rotationX (Renderer.mouseState st) /\
  Renderer.rotationY (Renderer.mouseState st')
  = Renderer.rotationY (Renderer.mouseState st).
Proof.
  unfold Renderer.dispatchAll. revert st.
  induction events as [|e events IH]; intros st Hk; cbn [fold_left].
  - repeat split. exact Hk.
  - assert (Hstep : Renderer.kilominx (Renderer.dispatch st e) = None /\
                    Renderer.rotationX (Renderer.mouseState (Renderer.dispatch st e))
                    = Renderer.rotationX (Renderer.mouseState st) /\
                    Renderer.rotationY (Renderer.mouseState (Renderer.dispatch st e))
                    = Renderer.rotationY (Renderer.mouseState st)).
    { destruct e as [cx cy|cx cy|]; cbn [Renderer.dispatch].
      - repeat split. exact Hk.
      - unfold Renderer.handleMouseMove. rewrite Hk.
        destruct (negb _); repeat split; exact Hk.
      - repeat split. exact Hk. }
    destruct Hstep as (Hk' & Hx & Hy).
    destruct (IH _ Hk') as (H1 & H2 & H3).
    split; [exact H1|]. split; congruence.
Qed.

Lemma no_mesh_no_rotation_witness :
  Renderer.kilominx
    (Renderer.mkViewState (Renderer.initialMouseState (A := IEEE)) None) = None /\
  Renderer.kilominx
    (Renderer.dispatchAll (A := IEEE)
       [Renderer.MouseDown 10 20; Renderer.MouseMove 30 50]%float
       (Renderer.mkViewState (Renderer.initialMouseState (A := IEEE)) None))
  = None /\
  Renderer.rotationX
    (Renderer.mouseState
       (Renderer.dispatchAll (A := IEEE)
          [Renderer.MouseDown 10 20; Renderer.MouseMove 30 50]%float
          (Renderer.mkViewState (Renderer.initialMouseState (A := IEEE)) None)))
  = Renderer.rotationX (Renderer.initialMouseState (A := IEEE)) /\
  Renderer.rotationY
    (Renderer.mouseState
       (Renderer.dispatchAll (A := IEEE)
          [Renderer.MouseDown 10 20; Renderer.MouseMove 30 50]%float
          (Renderer.mkViewState (Renderer.initialMouseState (A := IEEE)) None)))
  = Renderer.rotationY (Renderer.initialMouseState (A := IEEE)).
Proof.
  assert (H : Renderer.kilominx
                (Renderer.mkViewState (Renderer.initialMouseState (A := IEEE)) None)
              = None) by reflexivity.
  split; [exact H|].
  exact (no_mesh_no_rotation float IEEE _ _ H).
Defined.

(** X25.  Triangle [t] of the geometry is given the material
    [Math.floor(t / 10) % 12], an index below 12, while a click on face
    index [t] repaints the material [Math.floor(t / 2)]: the two agree
    only for [t = 0] and [t = 1]. *)
Theorem click_repaints_other_material (faceCount t : nat) :
  t < faceCount ->
  exists m,
    nth_error (Renderer.faceGroups faceCount) t = Some (t * 3, 3, m) /\
    m < 12 /\
    (Renderer.clickedFaceIndex t = m <-> t < 2).
Proof.
  intros Ht. exists ((t / 10) mod 12).
  rewrite faceGroups_closed.
  split.
  - rewrite nth_error_map, nth_error_seq.
    destruct (Nat.ltb_spec t faceCount); [reflexivity|lia].
  - split; [apply Nat.mod_upper_bound; lia|].
    unfold Renderer.clickedFaceIndex.
    pose proof (Nat.mod_upper_bound (t / 10) 12).
    pose proof (Nat.div_mod_eq t 2). pose proof (Nat.mod_upper_bound t 2).
    pose proof (Nat.div_mod_eq t 10). pose proof (Nat.mod_upper_bound t 10).
    pose proof (Nat.div_mod_eq (t / 10) 12).
    split; intros; lia.
Qed.

Lemma click_repaints_other_material_witness :
  25 < 36 /\
  exists m,
    nth_error (Renderer.faceGroups 36) 25 = Some (25 * 3, 3, m) /\
    m < 12 /\
    (Renderer.clickedFaceIndex 25 = m <-> 25 < 2).
Proof.
  assert (H : 25 < 36) by lia.
  split; [exact H|].
  exact (click_repaints_other_material 36 25 H).
Defined.

(** X26.  [newColors[faceIndex] = selectedColor] on the copied colours: the
    entry at [faceIndex] is the selected colour afterwards, the other
    entries of the array are as before, and the array grows to
    [faceIndex + 1] entries when [faceIndex] is past its end, the entries
    in between empty. *)
Theorem assignColor_lookup (colors : list (option FaceColor)) (i : nat)
    (c : FaceColor) :
  let colors' := Renderer.assignColor colors i c in
  nth_error colors' i = Some (Some c) /\
  length colors' = Nat.max (length colors) (S i) /\
  (forall j, j <> i -> j < length colors ->
             nth_error colors' j = nth_error colors j) /\
  (forall j, length colors <= j < i -> nth_error colors' j = Some None).
Proof.
  intros colors'. unfold colors', Renderer.assignColor.
  destruct (Nat.ltb_spec i (length colors)) as [Hi|Hi].
  - split; [apply set_nth_same, Hi|].
    split; [rewrite set_nth_length; lia|].
    split.
    + intros j Hj _. apply set_nth_other. congruence.
    + intros j Hj. lia.
  - split.
    + rewrite nth_error_app2 by lia.
      rewrite nth_error_app2 by (rewrite repeat_length; lia).
      rewrite repeat_length, Nat.sub_diag. reflexivity.
    + split.
      * rewrite !length_app, repeat_length. cbn [length]. lia.
      * split.
        -- intros j Hj Hlt. apply nth_error_app1. exact Hlt.
        -- intros j Hj. rewrite nth_error_app2 by lia.
           rewrite nth_error_app1 by (rewrite repeat_length; lia).
           rewrite nth_error_repeat by lia. reflexivity.
Qed.
